(** * Predixia: dashboard store and sensor pipeline

    A shallow embedding of the TypeScript sources of the Predixia dashboard
    (the machine store, its dummy history generator and the dashboard page's
    derived values) and of the code of the planning guides (the Rust ring
    buffer and processing pipeline, the TypeScript circular buffer and
    sensor store, the Python feature extractor), followed by a model of the
    alert rule engine that the specification describes.

    Conventions.
    - A JavaScript [number] is an IEEE double.  Where the code only stores
      or compares a number, it is modelled by [number]: a finite value is an
      exact rational, next to the two infinities and NaN, and a comparison
      with NaN is false.  Where the code computes with numbers (the average
      utilization, the features of a window), they are the binary64 floats
      of the kernel, whose operations round to nearest as the code's do.
    - [Date.now()] and [Math.random()] are inputs: the instant [now] and the
      stream [random] of the successive results of [Math.random()].
      [Math.sin] is an input function with the range of the sine. *)

From Stdlib Require Import Floats.
From Stdlib Require Import QArith Qminmax Lqa Lia ZArith.
From stdpp Require Import gmap strings list fin_maps.

#[local] Open Scope Z_scope.
#[local] Set Warnings "-inexact-float".

(** ** JavaScript numbers *)

Module JsNumber.

Inductive number : Type :=
| Finite (q : Q)
| PosInf
| NegInf
| NaN.

Definition Qltb (x y : Q) : bool :=
  match (x ?= y)%Q with Lt => true | _ => false end.

Definition Qleb (x y : Q) : bool :=
  match (x ?= y)%Q with Gt => false | _ => true end.

(** [a < b] *)
Definition lt (a b : number) : bool :=
  match a, b with
  | NaN, _ | _, NaN => false
  | Finite x, Finite y => Qltb x y
  | NegInf, NegInf => false
  | NegInf, _ => true
  | _, NegInf => false
  | PosInf, _ => false
  | Finite _, PosInf => true
  end.

(** [a <= b] *)
Definition le (a b : number) : bool :=
  match a, b with
  | NaN, _ | _, NaN => false
  | Finite x, Finite y => Qleb x y
  | NegInf, _ => true
  | _, PosInf => true
  | _, NegInf => false
  | PosInf, _ => false
  end.

(** [a >= b] *)
Definition ge (a b : number) : bool := le b a.

End JsNumber.

Import JsNumber.

(** ** Doubles

    The arithmetic of a JavaScript [number], of a Rust [f64] and of a numpy
    [float64] is that of the kernel's [float]: [PrimFloat.add],
    [PrimFloat.div] and the others round to the nearest double, overflow to
    an infinity and give NaN for [0 / 0]. *)

Module Double.

(** The double of an array length. *)
Definition of_length (n : nat) : float :=
  PrimFloat.of_uint63 (Uint63.of_Z (Z.of_nat n)).

(** The value of a double, exactly. *)
Definition to_number (x : float) : number :=
  match Prim2SF x with
  | S754_zero _ => Finite 0
  | S754_finite s m e => Finite (inject_Z (cond_Zopp s (Z.pos m)) * 2 ^ e)%Q
  | S754_infinity false => PosInf
  | S754_infinity true => NegInf
  | S754_nan => NaN
  end.

(** The rational that a finite double stands for. *)
Definition exact (x : float) : option Q :=
  match to_number x with
  | Finite q => Some q
  | _ => None
  end.

End Double.

(** ** src/types/machine.ts: the data model *)

Inductive MachineStatus : Type := online | offline | maintenance | error.

Inductive Severity : Type := high | medium | low.

Module MachineParameter.
Record t : Type := mk {
  id : string;
  name : string;
  value : number;
  unit : string;
  min : number;
  max : number;
  critical : number;
  warning : number;
  timestamp : string
}.
End MachineParameter.

Module Machine.
Record t : Type := mk {
  id : string;
  name : string;
  type : string;
  status : MachineStatus;
  health : number;
  utilization : float;
  lastMaintenance : string;
  nextMaintenance : string;
  location : string;
  parameters : list MachineParameter.t
}.
End Machine.

Module Alert.
Record t : Type := mk {
  id : string;
  machineId : string;
  machineName : string;
  title : string;
  description : string;
  severity : Severity;
  timestamp : string;
  acknowledged : bool
}.
End Alert.

(** A [PerformanceMetric] of the generator: its [timestamp] is an integral
    number of milliseconds and its [value] is finite. *)
Module PerformanceMetric.
Record t : Type := mk {
  timestamp : Z;
  value : Q
}.
End PerformanceMetric.

(** ** The machine store *)

Module MachineStore.

Record t : Type := mk {
  machines : list Machine.t;
  alerts : list Alert.t;
  performanceHistory : list PerformanceMetric.t;
  systemHealth : number;
  predictionAccuracy : number;
  selectedMachineId : option string
}.

Section Environment.

(** [Date.now()], [Date.prototype.toISOString], [Math.random()] (its
    successive results) and [Math.sin]. *)
Variable now : Z.
Variable toISOString : Z -> string.
Variable random : nat -> Q.
Variable sin : Q -> Q.

Definition hours24 : Z := 24 * 60 * 60 * 1000.

(** The object pushed at iteration [i]. *)
Definition dataPoint (i : nat) : PerformanceMetric.t :=
  {| PerformanceMetric.timestamp := now - hours24 + (Z.of_nat i * 5 * 60 * 1000);
     PerformanceMetric.value :=
       (75 + random i * 20 + sin (inject_Z (Z.of_nat i) / 12) * 5)%Q |}.

(** [for (let i = ...; i < 288; i++) data.push(...)]: [remaining] counts the
    iterations left, [i] is the loop variable. *)
Fixpoint pushLoop (remaining i : nat) (data : list PerformanceMetric.t)
  : list PerformanceMetric.t :=
  match remaining with
  | O => data
  | S remaining' => pushLoop remaining' (S i) (data ++ [dataPoint i])
  end.

Definition generatePerformanceData : list PerformanceMetric.t :=
  pushLoop 288 0 [].

Definition dummyMachines : list Machine.t :=
  [ {| Machine.id := "M001";
       Machine.name := "CNC Mill Alpha";
       Machine.type := "CNC Machine";
       Machine.status := online;
       Machine.health := Finite 98.5;
       Machine.utilization := 85.2%float;
       Machine.lastMaintenance := "2024-03-15";
       Machine.nextMaintenance := "2024-04-15";
       Machine.location := "Production Line A";
       Machine.parameters :=
         [ {| MachineParameter.id := "P001";
              MachineParameter.name := "Spindle Speed";
              MachineParameter.value := Finite 8500;
              MachineParameter.unit := "RPM";
              MachineParameter.min := Finite 0;
              MachineParameter.max := Finite 12000;
              MachineParameter.critical := Finite 11000;
              MachineParameter.warning := Finite 10000;
              MachineParameter.timestamp := toISOString now |};
           {| MachineParameter.id := "P002";
              MachineParameter.name := "Temperature";
              MachineParameter.value := Finite 65;
              MachineParameter.unit := "°C";
              MachineParameter.min := Finite 0;
              MachineParameter.max := Finite 100;
              MachineParameter.critical := Finite 85;
              MachineParameter.warning := Finite 75;
              MachineParameter.timestamp := toISOString now |} ] |};
    {| Machine.id := "M002";
       Machine.name := "Robotic Arm Beta";
       Machine.type := "Robot";
       Machine.status := maintenance;
       Machine.health := Finite 75.8;
       Machine.utilization := 0%float;
       Machine.lastMaintenance := "2024-03-18";
       Machine.nextMaintenance := "2024-03-20";
       Machine.location := "Assembly Line B";
       Machine.parameters :=
         [ {| MachineParameter.id := "P003";
              MachineParameter.name := "Joint Speed";
              MachineParameter.value := Finite 45;
              MachineParameter.unit := "deg/s";
              MachineParameter.min := Finite 0;
              MachineParameter.max := Finite 180;
              MachineParameter.critical := Finite 160;
              MachineParameter.warning := Finite 140;
              MachineParameter.timestamp := toISOString now |} ] |};
    {| Machine.id := "M003";
       Machine.name := "Laser Cutter Gamma";
       Machine.type := "Laser System";
       Machine.status := error;
       Machine.health := Finite 45.2;
       Machine.utilization := 0%float;
       Machine.lastMaintenance := "2024-02-28";
       Machine.nextMaintenance := "2024-03-21";
       Machine.location := "Production Line C";
       Machine.parameters :=
         [ {| MachineParameter.id := "P004";
              MachineParameter.name := "Laser Power";
              MachineParameter.value := Finite 950;
              MachineParameter.unit := "W";
              MachineParameter.min := Finite 0;
              MachineParameter.max := Finite 1000;
              MachineParameter.critical := Finite 980;
              MachineParameter.warning := Finite 900;
              MachineParameter.timestamp := toISOString now |} ] |} ].

Definition dummyAlerts : list Alert.t :=
  [ {| Alert.id := "A001";
       Alert.machineId := "M003";
       Alert.machineName := "Laser Cutter Gamma";
       Alert.title := "Critical Temperature Warning";
       Alert.description := "Machine temperature exceeds safe operating range";
       Alert.severity := high;
       Alert.timestamp := toISOString (now - 1000 * 60 * 5);
       Alert.acknowledged := false |};
    {| Alert.id := "A002";
       Alert.machineId := "M002";
       Alert.machineName := "Robotic Arm Beta";
       Alert.title := "Scheduled Maintenance";
       Alert.description := "Regular maintenance check required";
       Alert.severity := medium;
       Alert.timestamp := toISOString (now - 1000 * 60 * 15);
       Alert.acknowledged := true |};
    {| Alert.id := "A003";
       Alert.machineId := "M001";
       Alert.machineName := "CNC Mill Alpha";
       Alert.title := "Performance Optimization";
       Alert.description := "Slight decrease in cutting efficiency detected";
       Alert.severity := low;
       Alert.timestamp := toISOString (now - 1000 * 60 * 30);
       Alert.acknowledged := false |} ].

(** The initial state built by [create<MachineStore>(...)]. *)
Definition useMachineStore : t :=
  {| machines := dummyMachines;
     alerts := dummyAlerts;
     performanceHistory := generatePerformanceData;
     systemHealth := Finite 89.5;
     predictionAccuracy := Finite 94.8;
     selectedMachineId := None |}.

End Environment.

(** [set({ selectedMachineId: id })] merges the one key into the state. *)
Definition setSelectedMachineId (id : option string) (st : t) : t :=
  {| machines := machines st;
     alerts := alerts st;
     performanceHistory := performanceHistory st;
     systemHealth := systemHealth st;
     predictionAccuracy := predictionAccuracy st;
     selectedMachineId := id |}.

(** The store exposes one action; a client can only call it, in any order. *)
Inductive Action : Type :=
| SetSelectedMachineId (id : option string).

Definition dispatch (st : t) (a : Action) : t :=
  match a with
  | SetSelectedMachineId id => setSelectedMachineId id st
  end.

Definition run (actions : list Action) (st : t) : t :=
  fold_left dispatch actions st.

(** Unbounded growth of the history held by the store: every bound is
    exceeded in some reachable state. *)
Definition history_grows_without_bound : Prop :=
  forall N : nat,
  exists now toISOString random sin actions,
    (N < length (performanceHistory
                   (run actions (useMachineStore now toISOString random sin))))%nat.

End MachineStore.

(** ** components/cards/StatusCard.tsx *)

Module StatusCard.
Inductive Status : Type := normal | warning | error | offline.
End StatusCard.

(** ** The dashboard page: values derived from the store *)

Module DashboardPage.

(** [machines.reduce((sum, machine) => sum + machine.utilization, 0)
      / machines.length] *)
Definition averageUtilization (machines : list Machine.t) : float :=
  PrimFloat.div
    (fold_left (fun sum machine => PrimFloat.add sum (Machine.utilization machine))
       machines 0%float)
    (Double.of_length (length machines)).

Record AlertCounts : Type := mkCounts { c_high : nat; c_medium : nat; c_low : nat }.

(** [alerts.reduce((acc, alert) => { acc[alert.severity]++; return acc },
      { high: 0, medium: 0, low: 0 })] *)
Definition alertCounts (alerts : list Alert.t) : AlertCounts :=
  fold_left
    (fun acc alert =>
       match Alert.severity alert with
       | high => mkCounts (S (c_high acc)) (c_medium acc) (c_low acc)
       | medium => mkCounts (c_high acc) (S (c_medium acc)) (c_low acc)
       | low => mkCounts (c_high acc) (c_medium acc) (S (c_low acc))
       end)
    alerts (mkCounts 0 0 0).

(** [getSystemStatus], a closure over the store's [systemHealth]. *)
Definition getSystemStatus (systemHealth : number) : StatusCard.Status :=
  if lt systemHealth (Finite 50) then StatusCard.error
  else if lt systemHealth (Finite 80) then StatusCard.warning
  else StatusCard.normal.

(** The status of the "Machine Utilization" card. *)
Definition utilizationStatus (averageUtilization : number) : StatusCard.Status :=
  if lt averageUtilization (Finite 50) then StatusCard.warning
  else StatusCard.normal.

(** The three-way reading of the status: ['error'] below 50, ['warning']
    from 50 to below 80, ['normal'] from 80 on. *)
Definition system_status_claim : Prop :=
  forall systemHealth : number,
    (getSystemStatus systemHealth = StatusCard.error
       <-> lt systemHealth (Finite 50) = true) /\
    (getSystemStatus systemHealth = StatusCard.warning
       <-> ge systemHealth (Finite 50) = true /\ lt systemHealth (Finite 80) = true) /\
    (getSystemStatus systemHealth = StatusCard.normal
       <-> ge systemHealth (Finite 80) = true).

End DashboardPage.

(** The sum of a list of rationals, for stating means. *)
Definition Qsum (l : list Q) : Q := fold_right Qplus 0%Q l.

(** [averageUtilization] read as the arithmetic mean: for machines whose
    utilizations are finite, the result is the double that stands for the
    sum of their values divided by their number. *)
Definition arithmetic_mean_claim : Prop :=
  forall (machines : list Machine.t) (qs : list Q),
    machines <> [] ->
    map (fun machine => Double.exact (Machine.utilization machine)) machines
      = map Some qs ->
    exists q,
      Double.exact (DashboardPage.averageUtilization machines) = Some q /\
      (q == Qsum qs / inject_Z (Z.of_nat (length machines)))%Q.

(** * The view components

    What the components compute from their props and state.  A component's
    state lives in [useState] cells or in a store; an event handler is
    modelled on the state of the latest render, which is the state its
    closure holds when each event is handled after the previous one's
    update has been rendered. *)

(** ** components/cards/StatusCard.tsx: icon and badge *)

Module StatusCardView.

Inductive Icon : Type :=
| CheckCircleOutlined
| WarningOutlined
| CloseCircleOutlined.

(** [getStatusIcon]: the icon component and its colour. *)
Definition getStatusIcon (status : StatusCard.Status) : Icon * string :=
  match status with
  | StatusCard.normal => (CheckCircleOutlined, "#52c41a")
  | StatusCard.warning => (WarningOutlined, "#faad14")
  | StatusCard.error => (CloseCircleOutlined, "#ff4d4f")
  | StatusCard.offline => (CloseCircleOutlined, "#8c8c8c")
  end.

Definition getStatusColor (status : StatusCard.Status) : string :=
  match status with
  | StatusCard.normal => "success"
  | StatusCard.warning => "warning"
  | StatusCard.error => "error"
  | StatusCard.offline => "default"
  end.

End StatusCardView.

(** ** components/alerts/AlertList.tsx *)

Module AlertList.

Record Alert : Type := mkAlert {
  id : string;
  title : string;
  description : string;
  severity : Severity;
  timestamp : string;
  machine : string
}.

Definition getSeverityColor (severity : Severity) : string :=
  match severity with
  | high => "#ff4d4f"
  | medium => "#faad14"
  | low => "#52c41a"
  end.

End AlertList.

(** ** components/charts/GaugeChart.tsx *)

Module GaugeChart.

Record Thresholds : Type := mkThresholds {
  warning : number;
  danger : number
}.

(** The default of the [thresholds] prop. *)
Definition defaultThresholds : Thresholds :=
  {| warning := Finite 70; danger := Finite 90 |}.

(** The colour of the progress bar:
    [value >= thresholds.danger ? '#ff4d4f'
       : value >= thresholds.warning ? '#faad14' : '#52c41a']. *)
Definition progressColor (value : number) (thresholds : Thresholds) : string :=
  if ge value (danger thresholds) then "#ff4d4f"
  else if ge value (warning thresholds) then "#faad14"
  else "#52c41a".

End GaugeChart.

(** ** components/charts/ResponsiveChart.tsx *)

Module ResponsiveChart.

(** The optional width props; an absent prop takes its default. *)
Record Props : Type := mkProps {
  defaultWidth : option number;
  minWidth : option number;
  maxWidth : option number
}.

Definition defaultWidth_ (p : Props) : number := default (Finite 100) (defaultWidth p).
Definition minWidth_ (p : Props) : number := default (Finite 50) (minWidth p).
Definition maxWidth_ (p : Props) : number := default (Finite 100) (maxWidth p).

(** The two [useState] cells. *)
Record State : Type := mkState {
  width : number;
  isExpanded : bool
}.

(** [useState(defaultWidth)] and [useState(false)]. *)
Definition initial (p : Props) : State :=
  {| width := defaultWidth_ p; isExpanded := false |}.

(** [toggleExpanded]: both updates read the [isExpanded] of the render. *)
Definition toggleExpanded (p : Props) (st : State) : State :=
  {| width := if negb (isExpanded st) then Finite 100 else defaultWidth_ p;
     isExpanded := negb (isExpanded st) |}.

(** The width is the one the mode asks for. *)
Definition chart_consistent (p : Props) (st : State) : Prop :=
  width st = if isExpanded st then Finite 100 else defaultWidth_ p.

(** [n] clicks on the button. *)
Fixpoint clicks (p : Props) (n : nat) (st : State) : State :=
  match n with
  | O => st
  | S n' => clicks p n' (toggleExpanded p st)
  end.

End ResponsiveChart.

(** ** store/appStore.ts *)

Module AppStore.

Record t : Type := mk {
  isSidebarCollapsed : bool
}.

Definition useAppStore : t := {| isSidebarCollapsed := false |}.

(** [set({ isSidebarCollapsed: collapsed })] *)
Definition setIsSidebarCollapsed (collapsed : bool) (st : t) : t :=
  {| isSidebarCollapsed := collapsed |}.

End AppStore.

(** ** components/layout/MainLayout.tsx *)

Module MainLayout.

Definition toggleSidebar (st : AppStore.t) : AppStore.t :=
  AppStore.setIsSidebarCollapsed (negb (AppStore.isSidebarCollapsed st)) st.

(** The listener of the window's [resize] events. *)
Definition handleResize (st : AppStore.t) : AppStore.t :=
  AppStore.setIsSidebarCollapsed (negb (AppStore.isSidebarCollapsed st)) st.

Inductive LayoutEvent : Type := ToggleClick | WindowResize.

Definition handle (st : AppStore.t) (e : LayoutEvent) : AppStore.t :=
  match e with
  | ToggleClick => toggleSidebar st
  | WindowResize => handleResize st
  end.

(** [width={isSidebarCollapsed ? 80 : 250}] of the sider, in pixels. *)
Definition siderWidth (st : AppStore.t) : Z :=
  if AppStore.isSidebarCollapsed st then 80 else 250.

(** [marginLeft: isSidebarCollapsed ? 80 : 250] of the main layout. *)
Definition contentMarginLeft (st : AppStore.t) : Z :=
  if AppStore.isSidebarCollapsed st then 80 else 250.

End MainLayout.

(** ** components/layout/Header.tsx *)

Module AppHeader.

Record State : Type := mkState {
  isVisible : bool;
  lastScrollY : number
}.

(** [useState(true)] and [useState(0)]. *)
Definition initial : State :=
  {| isVisible := true; lastScrollY := Finite 0 |}.

(** [handleScroll], with [currentScrollY = window.scrollY]. *)
Definition handleScroll (currentScrollY : number) (st : State) : State :=
  {| isVisible :=
       if lt (lastScrollY st) currentScrollY && lt (Finite 100) currentScrollY
       then false else true;
     lastScrollY := currentScrollY |}.

Definition scrolls (positions : list number) (st : State) : State :=
  fold_left (fun st y => handleScroll y st) positions st.

(** [marginLeft: `${isSidebarCollapsed ? 80 : 250}px`] *)
Definition marginLeft (app : AppStore.t) : Z :=
  if AppStore.isSidebarCollapsed app then 80 else 250.

(** The pixels taken off the full width in
    [width: `calc(100% - ${isSidebarCollapsed ? 80 : 250}px)`]. *)
Definition widthOffset (app : AppStore.t) : Z :=
  if AppStore.isSidebarCollapsed app then 80 else 250.

End AppHeader.

(** ** The dashboard page: the cards, the list and the charts *)

Module DashboardView.

(** [alerts.map(alert => ({ id: alert.id, ..., machine: alert.machineName }))] *)
Definition formattedAlerts (alerts : list Alert.t) : list AlertList.Alert :=
  map (fun alert =>
         {| AlertList.id := Alert.id alert;
            AlertList.title := Alert.title alert;
            AlertList.description := Alert.description alert;
            AlertList.severity := Alert.severity alert;
            AlertList.timestamp := Alert.timestamp alert;
            AlertList.machine := Alert.machineName alert |})
      alerts.

(** The status of the "Active Alerts" card:
    [alertCounts.high > 0 ? 'error' : alertCounts.medium > 0 ? 'warning' : 'normal']. *)
Definition activeAlertsStatus (alerts : list Alert.t) : StatusCard.Status :=
  let counts := DashboardPage.alertCounts alerts in
  if Nat.ltb 0 (DashboardPage.c_high counts) then StatusCard.error
  else if Nat.ltb 0 (DashboardPage.c_medium counts) then StatusCard.warning
  else StatusCard.normal.

(** The description of the "Machine Utilization" card. *)
Definition utilizationDescription (averageUtilization : number) : string :=
  if lt averageUtilization (Finite 50) then "Below target" else "Optimal performance".

(** The status of the "Prediction Accuracy" card. *)
Definition predictionStatus (predictionAccuracy : number) : StatusCard.Status :=
  if lt predictionAccuracy (Finite 90) then StatusCard.warning else StatusCard.normal.

(** The [thresholds] the page passes to the "System Load" gauge. *)
Definition systemLoadThresholds : GaugeChart.Thresholds :=
  {| GaugeChart.warning := Finite 60; GaugeChart.danger := Finite 80 |}.

(** The width props the page passes to the two charts. *)
Definition performanceChartProps : ResponsiveChart.Props :=
  {| ResponsiveChart.defaultWidth := Some (Finite 100);
     ResponsiveChart.minWidth := Some (Finite 60);
     ResponsiveChart.maxWidth := Some (Finite 100) |}.

Definition systemLoadChartProps : ResponsiveChart.Props :=
  {| ResponsiveChart.defaultWidth := Some (Finite 100);
     ResponsiveChart.minWidth := Some (Finite 50);
     ResponsiveChart.maxWidth := Some (Finite 100) |}.

#[global] Instance Severity_eq_dec : EqDecision Severity.
Proof. solve_decision. Defined.

(** The alerts of one severity. *)
Definition alertsOf (s : Severity) (alerts : list Alert.t) : list Alert.t :=
  filter (fun alert => Alert.severity alert = s) alerts.

(** How severe a severity is, for comparing alerts. *)
Definition severityRank (s : Severity) : nat :=
  match s with
  | high => 2
  | medium => 1
  | low => 0
  end.

End DashboardView.

(** * docs/planning/Performance Optimization Guide.md: the ring buffer

    The Rust ring buffer of the planning guide, as one thread sees it: the
    atomic loads and stores are plain reads and writes.  A slot holds a
    pointer to a boxed item or null, here [Some item] or [None].  An index
    stays below [capacity], so [head + 1] does not wrap around [usize].  A
    remainder by zero and an index out of bounds panic.  Freeing a box twice
    is undefined behaviour; the allocator aborts the process on it, and so
    does the model. *)

Module LockFreeRingBuffer.

Inductive Outcome (A : Type) : Type :=
| Returned (a : A)
| Panicked
| Aborted.
Arguments Returned {A} a.
Arguments Panicked {A}.
Arguments Aborted {A}.

Section Buffer.

Context {T : Type}.

Record t : Type := mk {
  buffer : list (option T);
  head : nat;
  tail : nat;
  capacity : nat
}.

(** [new(capacity)]: [capacity] null slots, [head] and [tail] at 0. *)
Definition new (capacity : nat) : t :=
  {| buffer := replicate capacity None;
     head := 0;
     tail := 0;
     capacity := capacity |}.

(** [Result<(), T>] *)
Inductive PushResult : Type :=
| PushOk
| PushErr (item : T).

(** [(head + 1) % capacity == tail]: the test of [push] for a full
    buffer. *)
Definition is_full (b : t) : bool :=
  Nat.eqb ((head b + 1) mod capacity b) (tail b).

(** [push]: full when the slot after [head] is [tail].  On a full buffer
    the source rebuilds the item's box from the raw pointer and drops it
    ("Clean up"), then rebuilds the box a second time for the [Err]: the
    item is read from freed memory and the box is freed twice, so the call
    does not return. *)
Definition push (b : t) (item : T) : Outcome (t * PushResult) :=
  match capacity b with
  | O => Panicked
  | S _ =>
      let next_head := ((head b + 1) mod capacity b)%nat in
      if Nat.eqb next_head (tail b) then Aborted
      else if Nat.ltb (head b) (length (buffer b)) then
        Returned ({| buffer := <[head b := Some item]> (buffer b);
                     head := next_head;
                     tail := tail b;
                     capacity := capacity b |},
                  PushOk)
      else Panicked
  end.

(** [pop]: empty when [tail] is [head]; a null slot also yields [None]. *)
Definition pop (b : t) : Outcome (t * option T) :=
  if Nat.eqb (tail b) (head b) then Returned (b, None)
  else
    match buffer b !! tail b with
    | None => Panicked
    | Some None => Returned (b, None)
    | Some (Some item) =>
        match capacity b with
        | O => Panicked
        | S _ =>
            Returned ({| buffer := <[tail b := None]> (buffer b);
                         head := head b;
                         tail := ((tail b + 1) mod capacity b)%nat;
                         capacity := capacity b |},
                      Some item)
        end
    end.

(** The calls of a client and what each call returns. *)
Inductive Op : Type :=
| Push (item : T)
| Pop.

Inductive Reply : Type :=
| Pushed
| Refused (item : T)
| Popped (item : option T)
| Panic
| Abort.

(** A run of calls on the buffer; a panic or an abort ends it. *)
Fixpoint run (ops : list Op) (b : t) : list Reply :=
  match ops with
  | [] => []
  | Push item :: ops' =>
      match push b item with
      | Returned (b', PushOk) => Pushed :: run ops' b'
      | Returned (b', PushErr item') => Refused item' :: run ops' b'
      | Panicked => [Panic]
      | Aborted => [Abort]
      end
  | Pop :: ops' =>
      match pop b with
      | Returned (b', item) => Popped item :: run ops' b'
      | Panicked => [Panic]
      | Aborted => [Abort]
      end
  end.


(** The collecting loop of [start_processing]:
    [while batch.len() < batch_size
       { if let Some(reading) = buffer.pop() { batch.push(reading) }
         else { ...; break } }].
    Every iteration that does not break adds to [batch], so
    [batch_size - batch.len()] iterations suffice. *)
Fixpoint collect_loop (fuel : nat) (batch_size : nat) (b : t) (batch : list T)
  : Outcome (t * list T) :=
  match fuel with
  | O => Returned (b, batch)
  | S fuel' =>
      if Nat.ltb (length batch) batch_size then
        match pop b with
        | Returned (b', Some reading) =>
            collect_loop fuel' batch_size b' (batch ++ [reading])
        | Returned (b', None) => Returned (b', batch)
        | Panicked => Panicked
        | Aborted => Aborted
        end
      else Returned (b, batch)
  end.

Definition collect_batch (batch_size : nat) (b : t) (batch : list T)
  : Outcome (t * list T) :=
  collect_loop (batch_size - length batch) batch_size b batch.

(** The reference: a first-in first-out queue that holds at most [bound]
    items, as a list with the oldest item first; a push on the full queue
    ends the run. *)
Definition queue_pop (q : list T) : list T * option T :=
  match q with
  | [] => ([], None)
  | item :: q' => (q', Some item)
  end.

Fixpoint queue_run (bound : nat) (ops : list Op) (q : list T) : list Reply :=
  match ops with
  | [] => []
  | Push item :: ops' =>
      if Nat.ltb (length q) bound then Pushed :: queue_run bound ops' (q ++ [item])
      else [Abort]
  | Pop :: ops' =>
      let (q', item) := queue_pop q in Popped item :: queue_run bound ops' q'
  end.

(** The buffer [b] holds the items of [q], oldest at [tail]. *)
Definition represents (b : t) (q : list T) : Prop :=
  (0 < capacity b)%nat /\
  length (buffer b) = capacity b /\
  (tail b < capacity b)%nat /\
  (length q < capacity b)%nat /\
  head b = ((tail b + length q) mod capacity b)%nat /\
  forall k item, q !! k = Some item ->
    buffer b !! ((tail b + k) mod capacity b)%nat = Some (Some item).

End Buffer.

Arguments t T : clear implicits.
Arguments Op T : clear implicits.
Arguments Reply T : clear implicits.
Arguments PushResult T : clear implicits.


End LockFreeRingBuffer.

(** * docs/planning/Performance Optimization Guide.md: the processing pipeline

    The Rust [DataProcessingPipeline] of the guide: [ingest_reading] pushes
    on the ring buffer, and the task that [start_processing] spawns pops
    readings into a batch and hands the batch to [process_batch].  The two
    sides are interleaved call by call; the clock is an input. *)

Module DataProcessingPipeline.

Import LockFreeRingBuffer.

Inductive DataQuality : Type := Good | Bad | Uncertain | Substitute.

Record SensorReading : Type := mkSensorReading {
  sensor_id : string;
  equipment_id : string;
  timestamp : Z;
  value : float;
  quality : DataQuality
}.

(** The pipeline: the ingestion buffer it shares with its task and the
    batch size. *)
Record t : Type := mk {
  ingestion_buffer : LockFreeRingBuffer.t SensorReading;
  batch_size : nat
}.

(** [DataProcessingPipeline::new(buffer_capacity, worker_threads)]:
    [batch_size: 1000]. *)
Definition new (buffer_capacity : nat) : t :=
  {| ingestion_buffer := LockFreeRingBuffer.new buffer_capacity;
     batch_size := 1000 |}.

Definition with_buffer (b : LockFreeRingBuffer.t SensorReading) (p : t) : t :=
  {| ingestion_buffer := b; batch_size := batch_size p |}.

(** [ingest_reading]: [self.ingestion_buffer.push(reading)] *)
Definition ingest_reading (p : t) (reading : SensorReading)
  : Outcome (t * PushResult SensorReading) :=
  match push (ingestion_buffer p) reading with
  | Returned (b, r) => Returned (with_buffer b p, r)
  | Panicked => Panicked
  | Aborted => Aborted
  end.

(** One turn of the loop of the task: collect into [batch], then
    [if !batch.is_empty() && (batch.len() >= batch_size
         || last_flush.elapsed() >= flush_interval)]
    take the batch and process it.  [elapsed] is the outcome of the test of
    the clock.  The result holds the batch that is kept and the batch
    handed to [process_batch], if any. *)
Definition turn (elapsed : bool) (p : t) (batch : list SensorReading)
  : Outcome (t * list SensorReading * option (list SensorReading)) :=
  match collect_batch (batch_size p) (ingestion_buffer p) batch with
  | Returned (b, batch') =>
      if negb (Nat.eqb (length batch') 0)
         && (Nat.leb (batch_size p) (length batch') || elapsed)
      then Returned (with_buffer b p, [], Some batch')
      else Returned (with_buffer b p, batch', None)
  | Panicked => Panicked
  | Aborted => Aborted
  end.

(** What happens to a pipeline: a reading is submitted, or the task takes a
    turn. *)
Inductive Op : Type :=
| Ingest (reading : SensorReading)
| Turn (elapsed : bool).

(** The batches handed to [process_batch] in a run, in order; a panic or an
    abort ends the run. *)
Fixpoint run (ops : list Op) (p : t) (batch : list SensorReading)
  : list (list SensorReading) :=
  match ops with
  | [] => []
  | Ingest reading :: ops' =>
      match ingest_reading p reading with
      | Returned (p', _) => run ops' p' batch
      | _ => []
      end
  | Turn elapsed :: ops' =>
      match turn elapsed p batch with
      | Returned (p', batch', Some readings) => readings :: run ops' p' batch'
      | Returned (p', batch', None) => run ops' p' batch'
      | _ => []
      end
  end.




End DataProcessingPipeline.

(** * docs/planning/Performance Optimization Guide.md: the circular buffer

    The TypeScript [CircularBuffer] of the planning guide and the store
    actions that fill one buffer per sensor.  An array is a list of slots, a
    hole or [undefined] being [None]; [capacity] is a valid array length, a
    natural number.  With capacity 0 the remainder [% this.capacity] is NaN:
    [head] is [None] then. *)

Module CircularBuffer.

Section Buffer.

Context {T : Type}.

Record t : Type := mk {
  buffer : list (option T);
  head : option nat;
  size : nat;
  capacity : nat
}.

(** [new CircularBuffer(capacity)]: [new Array(capacity)], [head = 0],
    [size = 0]. *)
Definition make (capacity : nat) : t :=
  {| buffer := replicate capacity None;
     head := Some 0%nat;
     size := 0;
     capacity := capacity |}.

(** [a[i] = v]: past the end the array grows, with holes before [i]. *)
Definition array_set (a : list (option T)) (i : nat) (v : T) : list (option T) :=
  if Nat.ltb i (length a) then <[i := Some v]> a
  else a ++ replicate (i - length a) None ++ [Some v].

(** [add(item)] *)
Definition add (b : t) (item : T) : t :=
  {| buffer :=
       match head b with
       | Some h => array_set (buffer b) h item
       | None => buffer b
       end;
     head :=
       match head b, capacity b with
       | Some h, S _ => Some ((h + 1) mod capacity b)%nat
       | _, _ => None
       end;
     size := if Nat.ltb (size b) (capacity b) then S (size b) else size b;
     capacity := capacity b |}.

(** [this.buffer[(this.head - this.size + i + this.capacity) % this.capacity]];
    the remainder has the sign of the dividend, and an index that is
    negative, NaN or past the end reads [undefined]. *)
Definition slot (b : t) (i : nat) : option T :=
  match head b, capacity b with
  | Some h, S _ =>
      let index :=
        Z.rem (Z.of_nat h - Z.of_nat (size b) + Z.of_nat i + Z.of_nat (capacity b))
              (Z.of_nat (capacity b)) in
      if index <? 0 then None
      else mjoin (buffer b !! Z.to_nat index)
  | _, _ => None
  end.

(** [getAll()]: the loop fills [result[i]] for [i] from 0 below [size]. *)
Definition getAll (b : t) : list (option T) :=
  if Nat.eqb (size b) 0 then []
  else map (slot b) (seq 0 (size b)).

(** [all.slice(-count)] for a count that is a natural number: [-0] is 0, so
    a count of 0 slices from the start. *)
Definition slice_from_end {A : Type} (count : nat) (all : list A) : list A :=
  match count with
  | O => all
  | S _ => drop (length all - count) all
  end.

(** [getLast(count)] *)
Definition getLast (count : nat) (b : t) : list (option T) :=
  slice_from_end count (getAll b).

Definition add_all (items : list T) (b : t) : t :=
  fold_left add items b.

(** The buffer [b] of capacity [c] after the items [items] were added to a
    new buffer: the item number [j] sits in slot [j mod c] as long as fewer
    than [c] items came after it. *)
Definition keeps (c : nat) (items : list T) (b : t) : Prop :=
  capacity b = c /\
  length (buffer b) = c /\
  head b = Some (length items mod c)%nat /\
  size b = Nat.min (length items) c /\
  forall j item, items !! j = Some item -> (length items <= j + c)%nat ->
    buffer b !! (j mod c)%nat = Some (Some item).

End Buffer.

Arguments t T : clear implicits.

End CircularBuffer.

(** The sensor data of the guide's store: a map from sensor ids to circular
    buffers of readings.  The store's [set] runs the recipe of an action on
    an immer draft of the state.  immer drafts a [Map] or a [Set] only with
    its MapSet plugin, which [enableMapSet()] loads; without the plugin the
    first access to one of them through the draft throws, and the state
    stays as it was.  [mapSet] tells whether the plugin is loaded; nothing
    in the guide loads it. *)
Module SensorStore.

Section Store.

Context {Equipment SensorReading : Type}.
Variable equipment_id : Equipment -> string.
Variable mapSet : bool.

Record t : Type := mk {
  equipment : gmap string Equipment;
  sensorData : gmap string (CircularBuffer.t SensorReading);
  selectedEquipment : option string;
  selectedSensors : gset string;
  loadingStates : gmap string bool
}.

Definition initial : t :=
  {| equipment := ∅;
     sensorData := ∅;
     selectedEquipment := None;
     selectedSensors := ∅;
     loadingStates := ∅ |}.

(** [state.equipment.set(equipment.id, equipment)] *)
Definition addEquipment (e : Equipment) (st : t) : t :=
  {| equipment := <[equipment_id e := e]> (equipment st);
     sensorData := sensorData st;
     selectedEquipment := selectedEquipment st;
     selectedSensors := selectedSensors st;
     loadingStates := loadingStates st |}.

(** The body shared by [updateSensorData] and the loop of
    [batchUpdateSensorData]: create the sensor's buffer of capacity 1000
    when it is missing, then add the reading. *)
Definition store_reading (sensorId : string) (reading : SensorReading)
    (data : gmap string (CircularBuffer.t SensorReading))
  : gmap string (CircularBuffer.t SensorReading) :=
  let data' :=
    match data !! sensorId with
    | Some _ => data
    | None => <[sensorId := CircularBuffer.make 1000]> data
    end in
  match data' !! sensorId with
  | Some b => <[sensorId := CircularBuffer.add b reading]> data'
  | None => data'
  end.

Definition updateSensorData (sensorId : string) (reading : SensorReading) (st : t) : t :=
  {| equipment := equipment st;
     sensorData := store_reading sensorId reading (sensorData st);
     selectedEquipment := selectedEquipment st;
     selectedSensors := selectedSensors st;
     loadingStates := loadingStates st |}.

(** [state.selectedEquipment = equipmentId; state.selectedSensors.clear()] *)
Definition selectEquipment (equipmentId : option string) (st : t) : t :=
  {| equipment := equipment st;
     sensorData := sensorData st;
     selectedEquipment := equipmentId;
     selectedSensors := ∅;
     loadingStates := loadingStates st |}.

(** [updates.forEach(({ sensorId, reading }) => { ... })] *)
Definition batchUpdateSensorData (updates : list (string * SensorReading)) (st : t) : t :=
  {| equipment := equipment st;
     sensorData :=
       fold_left (fun data u => store_reading (fst u) (snd u) data)
         updates (sensorData st);
     selectedEquipment := selectedEquipment st;
     selectedSensors := selectedSensors st;
     loadingStates := loadingStates st |}.

Inductive Action : Type :=
| AddEquipment (e : Equipment)
| UpdateSensorData (sensorId : string) (reading : SensorReading)
| SelectEquipment (equipmentId : option string)
| BatchUpdateSensorData (updates : list (string * SensorReading)).

(** What the recipe of an action makes of the draft. *)
Definition recipe (st : t) (a : Action) : t :=
  match a with
  | AddEquipment e => addEquipment e st
  | UpdateSensorData sensorId reading => updateSensorData sensorId reading st
  | SelectEquipment equipmentId => selectEquipment equipmentId st
  | BatchUpdateSensorData updates => batchUpdateSensorData updates st
  end.

(** Whether the recipe of an action reaches a [Map] or a [Set] of the
    draft: every recipe does, but the loop over no updates. *)
Definition touches_collection (a : Action) : bool :=
  match a with
  | BatchUpdateSensorData [] => false
  | _ => true
  end.

(** An action returns with the next state, or throws. *)
Inductive Completion : Type :=
| Done (st : t)
| Throws.

Definition dispatch (st : t) (a : Action) : Completion :=
  if mapSet || negb (touches_collection a) then Done (recipe st a) else Throws.

(** The state after an action: unchanged when the action threw. *)
Definition step (st : t) (a : Action) : t :=
  match dispatch st a with
  | Done st' => st'
  | Throws => st
  end.

Definition run (actions : list Action) (st : t) : t :=
  fold_left step actions st.

(** The readings an action carries for the sensor [sensorId], in order. *)
Definition readings_of (sensorId : string) (a : Action) : list SensorReading :=
  match a with
  | UpdateSensorData s reading => if decide (s = sensorId) then [reading] else []
  | BatchUpdateSensorData updates =>
      flat_map (fun u => if decide (fst u = sensorId) then [snd u] else []) updates
  | AddEquipment _ | SelectEquipment _ => []
  end.

Definition readings_for (sensorId : string) (actions : list Action) : list SensorReading :=
  flat_map (readings_of sensorId) actions.

(** Every sensor that got readings has a buffer that keeps them, and no
    other sensor has a buffer. *)
Definition tracks (f : string -> list SensorReading)
    (data : gmap string (CircularBuffer.t SensorReading)) : Prop :=
  forall s,
    match data !! s with
    | None => f s = []
    | Some b => f s <> [] /\ CircularBuffer.keeps 1000 (f s) b
    end.

(** The selector of [useEquipmentData]: [state.equipment.get(equipmentId)]. *)
Definition useEquipmentData (equipmentId : string) (st : t) : option Equipment :=
  equipment st !! equipmentId.

(** The selector of [useSensorData], [count] defaulting to 100:
    [state.sensorData.get(sensorId)?.getLast(count) || []]. *)
Definition useSensorData (sensorId : string) (count : option nat) (st : t)
  : list (option SensorReading) :=
  match sensorData st !! sensorId with
  | Some b => CircularBuffer.getLast (default 100%nat count) b
  | None => []
  end.

(** The equipment an action adds under the id [equipmentId]. *)
Definition equipment_of (equipmentId : string) (a : Action) : option Equipment :=
  match a with
  | AddEquipment e => if decide (equipment_id e = equipmentId) then Some e else None
  | _ => None
  end.

End Store.

Arguments t Equipment SensorReading : clear implicits.
Arguments Action Equipment SensorReading : clear implicits.

End SensorStore.

(** * docs/planning/CI_CD.md: the feature extractor

    The Python [FeatureExtractor] of the guide.  A numpy array of [float64]
    is a list of doubles, and arithmetic on arrays is the doubles', element
    by element.  numpy is not among the sources.  Its minimum and maximum
    pick an element and do not round: they are folds.  Its sums round, in an
    order that depends on the length of the array: the reductions that add
    are the environment [Numpy] of the extractor, with the power of an
    element and the percentiles.  An exception that is raised is [Raise];
    [warnings.warn] sets the flag that comes with the features. *)

Module FeatureExtractor.

Inductive Exception : Type := ValueError (message : string).

Inductive Raises (A : Type) : Type :=
| Return (a : A)
| Raise (e : Exception).
Arguments Return {A} a.
Arguments Raise {A} e.

(** [np.mean], [np.std], [np.var], [np.percentile] and the power [x ** k]
    of an element. *)
Record Numpy : Type := mkNumpy {
  np_mean : list float -> float;
  np_std : list float -> float;
  np_var : list float -> float;
  np_percentile : list float -> Z -> float;
  np_power : float -> Z -> float
}.

(** [np.minimum] and [np.maximum]: a NaN on the left wins. *)
Definition minimum (a b : float) : float :=
  if PrimFloat.ltb a b || PrimFloat.is_nan a then a else b.

Definition maximum (a b : float) : float :=
  if PrimFloat.ltb b a || PrimFloat.is_nan a then a else b.

(** [f.reduce] on a non-empty array: from the first element on. *)
Definition reduce (f : float -> float -> float) (data : list float) : float :=
  match data with
  | [] => nan
  | x :: rest => fold_left f rest x
  end.

(** [np.min], [np.max] and [np.ptp], the maximum minus the minimum. *)
Definition np_min (data : list float) : float := reduce minimum data.

Definition np_max (data : list float) : float := reduce maximum data.

Definition np_ptp (data : list float) : float :=
  PrimFloat.sub (np_max data) (np_min data).

Record t : Type := mk {
  window_size : Z;
  overlap : float
}.

(** [__init__(self, window_size = 100, overlap = 0.5)] *)
Definition init (window_size : Z) (overlap : float) : Raises t :=
  if window_size <=? 0 then Raise (ValueError "Window size must be positive")
  else if negb (PrimFloat.leb 0 overlap && PrimFloat.ltb overlap 1)
  then Raise (ValueError "Overlap must be between 0 and 1")
  else Return {| window_size := window_size; overlap := overlap |}.

Definition default_window_size : Z := 100.
Definition default_overlap : float := 0.5%float.

Section Extractor.

Variable np : Numpy.

(** [((data - mean) / std) ** k] *)
Definition standardized (k : Z) (mean std : float) (data : list float) : list float :=
  map (fun x => np_power np (PrimFloat.div (PrimFloat.sub x mean) std) k) data.

(** [_calculate_skewness]: [0.0] when [std == 0]. *)
Definition _calculate_skewness (data : list float) : float :=
  let mean := np_mean np data in
  let std := np_std np data in
  if PrimFloat.eqb std 0 then 0%float
  else np_mean np (standardized 3 mean std data).

(** [_calculate_kurtosis]: [0.0] when [std == 0]. *)
Definition _calculate_kurtosis (data : list float) : float :=
  let mean := np_mean np data in
  let std := np_std np data in
  if PrimFloat.eqb std 0 then 0%float
  else PrimFloat.sub (np_mean np (standardized 4 mean std data)) 3.

(** The dictionary that [extract_statistical_features] returns. *)
Record Features : Type := mkFeatures {
  mean : float;
  std : float;
  variance : float;
  min : float;
  max : float;
  range : float;
  skewness : float;
  kurtosis : float;
  rms : float;
  p25 : float;
  p50 : float;
  p75 : float;
  p90 : float;
  p95 : float;
  p99 : float
}.

(** The features of an array, as the dictionary is filled. *)
Definition features_of (data : list float) : Features :=
  {| mean := np_mean np data;
     std := np_std np data;
     variance := np_var np data;
     min := np_min data;
     max := np_max data;
     range := np_ptp data;
     skewness := _calculate_skewness data;
     kurtosis := _calculate_kurtosis data;
     rms := PrimFloat.sqrt (np_mean np (map (fun x => np_power np x 2) data));
     p25 := np_percentile np data 25;
     p50 := np_percentile np data 50;
     p75 := np_percentile np data 75;
     p90 := np_percentile np data 90;
     p95 := np_percentile np data 95;
     p99 := np_percentile np data 99 |}.

(** [data[np.isfinite(data)]] *)
Definition finite_values (data : list float) : list float :=
  List.filter PrimFloat.is_finite data.

(** [extract_statistical_features(self, data)]: the features and whether
    the warning about non-finite values was given. *)
Definition extract_statistical_features (self : t) (data : list float)
  : Raises (Features * bool) :=
  if Nat.eqb (length data) 0 then Raise (ValueError "Data array cannot be empty")
  else
    let all_finite := forallb PrimFloat.is_finite data in
    let data' := if all_finite then data else finite_values data in
    if Nat.eqb (length data') 0
    then Raise (ValueError "No valid data points after filtering")
    else Return (features_of data', negb all_finite).

(** Whether a call returned or raised. *)
Definition returns {A : Type} (r : Raises A) : bool :=
  match r with
  | Return _ => true
  | Raise _ => false
  end.



End Extractor.

(** ** An environment for short arrays

    numpy adds the elements of an array of fewer than eight doubles in
    array order, starting from 0 (a longer array is added in blocks, which
    this environment does not follow); the mean divides the sum by the
    length, the variance is the mean of the squares of the distances to the
    mean, the standard deviation its square root.  The power is taken here
    by repeated multiplication and the percentile by linear interpolation
    in the sorted array; on the arrays of one repeated value that the
    examples use they give what numpy gives. *)

Definition sum (data : list float) : float :=
  fold_left PrimFloat.add data 0%float.

Definition mean_in_order (data : list float) : float :=
  PrimFloat.div (sum data) (Double.of_length (length data)).

Definition var_in_order (data : list float) : float :=
  let arrmean := mean_in_order data in
  let x := map (fun v => PrimFloat.sub v arrmean) data in
  mean_in_order (map (fun v => PrimFloat.mul v v) x).

Definition std_in_order (data : list float) : float :=
  PrimFloat.sqrt (var_in_order data).

Fixpoint power_nat (x : float) (k : nat) : float :=
  match k with
  | O => 1%float
  | S O => x
  | S k' => PrimFloat.mul (power_nat x k') x
  end.

Fixpoint insert_sorted (x : float) (sorted : list float) : list float :=
  match sorted with
  | [] => [x]
  | y :: rest => if PrimFloat.leb x y then x :: sorted else y :: insert_sorted x rest
  end.

Definition sort (data : list float) : list float :=
  fold_right insert_sorted [] data.

(** The integral part of a non-negative double below [2^53]. *)
Definition floor (x : float) : Z :=
  match Prim2SF x with
  | S754_finite false m e => Z.shiftl (Z.pos m) e
  | _ => 0
  end.

Definition percentile_linear (data : list float) (q : Z) : float :=
  let sorted := sort data in
  let index :=
    PrimFloat.mul (Double.of_length (length data - 1))
      (PrimFloat.div (PrimFloat.of_uint63 (Uint63.of_Z q)) 100) in
  let lo := Z.to_nat (floor index) in
  let t := PrimFloat.sub index (Double.of_length lo) in
  let a := nth lo sorted nan in
  let b := nth (Nat.min (lo + 1) (length data - 1)) sorted nan in
  PrimFloat.add a (PrimFloat.mul (PrimFloat.sub b a) t).

Definition numpy_in_order : Numpy :=
  {| np_mean := mean_in_order;
     np_std := std_in_order;
     np_var := var_in_order;
     np_percentile := percentile_linear;
     np_power := fun x k => power_nat x (Z.to_nat k) |}.

End FeatureExtractor.

(** * The alert rule engine of the specification

    No source file holds the alert rule engine that the specification
    describes.  The definitions of this module follow the specification's
    text (sections 3 and 4.6); values are exact rationals and instants are
    integral milliseconds. *)

Module Pipeline.

Inductive Result (A E : Type) : Type :=
| Ok (a : A)
| Err (e : E).
Arguments Ok {A E} a.
Arguments Err {A E} e.

Inductive Quality : Type := good | bad | uncertain | substitute.

(** Modelled from the spec: the [Reading] record of section 3 (no source
    file declares it). *)
Record Reading : Type := mkReading {
  sensor_id : string;
  equipment_id : string;
  timestamp : Z;
  value : Q;
  quality : Quality;
  unit : string
}.

(** ** 3 and 4.6 Alert instances and the rule engine *)

(** The lifecycle states; suppression is the parallel flag [suppressed]. *)
Inductive AlertState : Type := Active | Acknowledged | Resolved.

(** Modelled from the spec: the [AlertInstance] of section 3. *)
Record AlertInstance : Type := mkAlertInstance {
  alert_rule_id : string;
  state : AlertState;
  suppressed : bool;
  triggered_at : Z;
  acknowledged_at : option Z;
  acknowledged_by : option string;
  resolved_at : option Z;
  resolved_by : option string;
  last_observed_at : Z;
  metadata : list (string * string)
}.

Inductive TransitionError : Type :=
| InvalidTransition
| MissingActor
| TimestampRegression.

(** Modelled from the spec: [trigger] creates an Active instance. *)
Definition trigger (rule : string) (t : Z) : AlertInstance :=
  {| alert_rule_id := rule;
     state := Active;
     suppressed := false;
     triggered_at := t;
     acknowledged_at := None;
     acknowledged_by := None;
     resolved_at := None;
     resolved_by := None;
     last_observed_at := t;
     metadata := [] |}.

(** Modelled from the spec: [acknowledge] moves Active to Acknowledged and
    requires an actor identity; an instant before [triggered_at] is refused,
    which keeps [acknowledged_at >= triggered_at]. *)
Definition acknowledge (actor : string) (t : Z) (a : AlertInstance)
  : Result AlertInstance TransitionError :=
  match state a with
  | Active =>
      if bool_decide (actor = ""%string) then Err MissingActor
      else if t <? triggered_at a then Err TimestampRegression
      else Ok {| alert_rule_id := alert_rule_id a;
                 state := Acknowledged;
                 suppressed := suppressed a;
                 triggered_at := triggered_at a;
                 acknowledged_at := Some t;
                 acknowledged_by := Some actor;
                 resolved_at := resolved_at a;
                 resolved_by := resolved_by a;
                 last_observed_at := last_observed_at a;
                 metadata := metadata a |}
  | Acknowledged | Resolved => Err InvalidTransition
  end.

(** Modelled from the spec: [resolve] moves Acknowledged or Active to
    Resolved and requires an actor identity. *)
Definition resolve (actor : string) (t : Z) (a : AlertInstance)
  : Result AlertInstance TransitionError :=
  match state a with
  | Active | Acknowledged =>
      if bool_decide (actor = ""%string) then Err MissingActor
      else if t <? triggered_at a then Err TimestampRegression
      else Ok {| alert_rule_id := alert_rule_id a;
                 state := Resolved;
                 suppressed := suppressed a;
                 triggered_at := triggered_at a;
                 acknowledged_at := acknowledged_at a;
                 acknowledged_by := acknowledged_by a;
                 resolved_at := Some t;
                 resolved_by := Some actor;
                 last_observed_at := last_observed_at a;
                 metadata := metadata a |}
  | Resolved => Err InvalidTransition
  end.

(** Modelled from the spec: [suppress] and [unsuppress] toggle the parallel
    flag, whatever the acknowledgment; a Resolved instance is immutable. *)
Definition set_suppressed (flag : bool) (a : AlertInstance)
  : Result AlertInstance TransitionError :=
  match state a with
  | Active | Acknowledged =>
      Ok {| alert_rule_id := alert_rule_id a;
            state := state a;
            suppressed := flag;
            triggered_at := triggered_at a;
            acknowledged_at := acknowledged_at a;
            acknowledged_by := acknowledged_by a;
            resolved_at := resolved_at a;
            resolved_by := resolved_by a;
            last_observed_at := last_observed_at a;
            metadata := metadata a |}
  | Resolved => Err InvalidTransition
  end.

Definition suppress : AlertInstance -> Result AlertInstance TransitionError :=
  set_suppressed true.

Definition unsuppress : AlertInstance -> Result AlertInstance TransitionError :=
  set_suppressed false.

Definition with_metadata (m : list (string * string)) (a : AlertInstance)
  : AlertInstance :=
  {| alert_rule_id := alert_rule_id a;
     state := state a;
     suppressed := suppressed a;
     triggered_at := triggered_at a;
     acknowledged_at := acknowledged_at a;
     acknowledged_by := acknowledged_by a;
     resolved_at := resolved_at a;
     resolved_by := resolved_by a;
     last_observed_at := last_observed_at a;
     metadata := m |}.

(** Modelled from the spec: a metadata annotation, allowed in every state. *)
Definition annotate (key val : string) (a : AlertInstance) : AlertInstance :=
  with_metadata ((key, val) :: metadata a) a.

(** Modelled from the spec: a repeated satisfaction of the condition extends
    [last_observed_at] of an Active or Acknowledged instance (4.6). *)
Definition observe (t : Z) (a : AlertInstance)
  : Result AlertInstance TransitionError :=
  match state a with
  | Active | Acknowledged =>
      Ok {| alert_rule_id := alert_rule_id a;
            state := state a;
            suppressed := suppressed a;
            triggered_at := triggered_at a;
            acknowledged_at := acknowledged_at a;
            acknowledged_by := acknowledged_by a;
            resolved_at := resolved_at a;
            resolved_by := resolved_by a;
            last_observed_at := t;
            metadata := metadata a |}
  | Resolved => Err InvalidTransition
  end.

(** What can happen to an instance after its trigger. *)
Inductive Event : Type :=
| Acknowledge (actor : string) (t : Z)
| Resolve (actor : string) (t : Z)
| Suppress
| Unsuppress
| Annotate (key val : string)
| Observe (t : Z).

Definition apply_event (e : Event) (a : AlertInstance)
  : Result AlertInstance TransitionError :=
  match e with
  | Acknowledge actor t => acknowledge actor t a
  | Resolve actor t => resolve actor t a
  | Suppress => suppress a
  | Unsuppress => unsuppress a
  | Annotate key val => Ok (annotate key val a)
  | Observe t => observe t a
  end.

(** A refused event leaves the instance as it is. *)
Definition step (a : AlertInstance) (e : Event) : AlertInstance :=
  match apply_event e a with
  | Ok a' => a'
  | Err _ => a
  end.

Definition lifecycle (events : list Event) (a : AlertInstance) : AlertInstance :=
  fold_left step events a.

(** The edges of the state machine: Active to Acknowledged, Active or
    Acknowledged to Resolved, and staying in place. *)
Definition edge (s s' : AlertState) : bool :=
  match s, s' with
  | Active, _ => true
  | Acknowledged, (Acknowledged | Resolved) => true
  | Resolved, Resolved => true
  | _, _ => false
  end.

Inductive Operator : Type :=
| GreaterThan | GreaterOrEqual | LessThan | LessOrEqual.

Inductive Scope : Type :=
| GlobalScope
| EquipmentScope (equipment : string)
| SensorScope (sensor : string).

(** Modelled from the spec: the condition of an [AlertRule] (section 3). *)
Record Condition : Type := mkCondition {
  parameter : string;
  operator : Operator;
  threshold : Q;
  min_duration : Z
}.

Record AlertRule : Type := mkAlertRule {
  rule_id : string;
  scope : Scope;
  condition : Condition;
  severity : Severity;
  enabled : bool
}.

Definition satisfied (c : Condition) (v : Q) : bool :=
  match operator c with
  | GreaterThan => JsNumber.Qltb (threshold c) v
  | GreaterOrEqual => JsNumber.Qleb (threshold c) v
  | LessThan => JsNumber.Qltb v (threshold c)
  | LessOrEqual => JsNumber.Qleb v (threshold c)
  end.

Definition scope_matches (s : Scope) (r : Reading) : bool :=
  match s with
  | GlobalScope => true
  | EquipmentScope e => bool_decide (equipment_id r = e)
  | SensorScope sid => bool_decide (sensor_id r = sid)
  end.

(** The engine's state for one rule and scope: since when the condition has
    held without interruption, and the instances created, newest first. *)
Record RuleState : Type := mkRuleState {
  satisfied_since : option Z;
  instances : list AlertInstance
}.

Definition fresh : RuleState :=
  {| satisfied_since := None; instances := [] |}.

(** Modelled from the spec: the evaluation of one rule on one reading
    (section 4.6).  The condition must have held from [satisfied_since] for
    at least [min_duration] before an instance is triggered; while the
    newest instance is Active or Acknowledged a satisfied condition only
    extends its [last_observed_at]; an unsatisfied condition restarts the
    debounce. *)
Definition evaluate (rule : AlertRule) (r : Reading) (st : RuleState) : RuleState :=
  if enabled rule && scope_matches (scope rule) r then
    if satisfied (condition rule) (value r) then
      let since := default (timestamp r) (satisfied_since st) in
      if min_duration (condition rule) <=? timestamp r - since then
        match instances st with
        | a :: rest =>
            match observe (timestamp r) a with
            | Ok a' =>
                {| satisfied_since := Some since; instances := a' :: rest |}
            | Err _ =>
                {| satisfied_since := Some since;
                   instances := trigger (rule_id rule) (timestamp r) :: a :: rest |}
            end
        | [] =>
            {| satisfied_since := Some since;
               instances := [trigger (rule_id rule) (timestamp r)] |}
        end
      else {| satisfied_since := Some since; instances := instances st |}
    else {| satisfied_since := None; instances := instances st |}
  else st.

Definition feed (rule : AlertRule) (rs : list Reading) (st : RuleState) : RuleState :=
  fold_left (fun st r => evaluate rule r st) rs st.

(** Modelled from the spec: acknowledging and resolving the newest instance
    through the engine; once Resolved the rule re-triggers from scratch. *)
Definition engine_acknowledge (actor : string) (t : Z) (st : RuleState)
  : Result RuleState TransitionError :=
  match instances st with
  | a :: rest =>
      match acknowledge actor t a with
      | Ok a' => Ok {| satisfied_since := satisfied_since st; instances := a' :: rest |}
      | Err e => Err e
      end
  | [] => Err InvalidTransition
  end.

Definition engine_resolve (actor : string) (t : Z) (st : RuleState)
  : Result RuleState TransitionError :=
  match instances st with
  | a :: rest =>
      match resolve actor t a with
      | Ok a' => Ok {| satisfied_since := None; instances := a' :: rest |}
      | Err e => Err e
      end
  | [] => Err InvalidTransition
  end.

(** The invariant of section 3 on the instants of an instance. *)
Definition instants_ordered (a : AlertInstance) : Prop :=
  (forall t, acknowledged_at a = Some t -> triggered_at a <= t) /\
  (forall t, resolved_at a = Some t -> triggered_at a <= t).

(** The engine as its clients drive it: readings arrive and an operator
    acknowledges the newest instance. *)
Inductive EngineOp : Type :=
| Sample (r : Reading)
| OperatorAcknowledge (actor : string) (t : Z).

Definition engine_step (rule : AlertRule) (st : RuleState) (op : EngineOp)
  : RuleState :=
  match op with
  | Sample r => evaluate rule r st
  | OperatorAcknowledge actor t =>
      match engine_acknowledge actor t st with
      | Ok st' => st'
      | Err _ => st
      end
  end.

Definition engine_run (rule : AlertRule) (ops : list EngineOp) (st : RuleState)
  : RuleState :=
  fold_left (engine_step rule) ops st.

End Pipeline.

(** * Sample inputs *)

Module Samples.
Import Pipeline.

(** A sine for examples: the cubic Taylor polynomial, clamped to [-1, 1]. *)
Definition sin_clamped (x : Q) : Q :=
  Qmax (-1) (Qmin 1 (x - x * x * x / 6)).

Definition iso0 (t : Z) : string := "2024-03-19T00:00:00.000Z".

(** A machine that runs at the utilization [u]. *)
Definition machine (u : float) : Machine.t :=
  {| Machine.id := "M";
     Machine.name := "Machine";
     Machine.type := "CNC Machine";
     Machine.status := online;
     Machine.health := Finite 100;
     Machine.utilization := u;
     Machine.lastMaintenance := "2024-03-15";
     Machine.nextMaintenance := "2024-04-15";
     Machine.location := "Production Line A";
     Machine.parameters := [] |}.

(** A reading of the sensor [s] taken at the instant [t]. *)
Definition reading (s : string) (t : Z) : DataProcessingPipeline.SensorReading :=
  DataProcessingPipeline.mkSensorReading s "e1" t 1%float DataProcessingPipeline.Good.

(** The default extractor: window size 100, overlap 0.5. *)
Definition extractor : FeatureExtractor.t :=
  {| FeatureExtractor.window_size := 100; FeatureExtractor.overlap := 0.5%float |}.

Definition over80 : AlertRule :=
  mkAlertRule "R1" (SensorScope "s1")
    (mkCondition "temperature" GreaterThan 80 10000) high true.

Definition hot (t : Z) : Reading := mkReading "s1" "e1" t 85 good "C".

End Samples.

(** * Proof automation *)

Module Automation.
Import Pipeline.

(** Case analysis of one lifecycle function: on the state, the actor test
    and the instant test. *)
Ltac lifecycle_cases a :=
  unfold step, apply_event, acknowledge, resolve, suppress, unsuppress,
    set_suppressed, observe, annotate, with_metadata in *;
  destruct (state a) eqn:?;
  repeat case_bool_decide;
  repeat match goal with
         | |- context [Z.ltb ?x ?y] => destruct (Z.ltb_spec x y)
         | H : context [Z.ltb ?x ?y] |- _ => destruct (Z.ltb_spec x y)
         end;
  simpl in *.


End Automation.

(** * Properties *)

(** ** JavaScript numbers *)

Module JsNumberFacts.
Import JsNumber.

Lemma Qltb_lt x y : Qltb x y = true <-> (x < y)%Q.
Proof.
  unfold Qltb. rewrite Qlt_alt.
  destruct (x ?= y)%Q; split; congruence.
Qed.

Lemma Qleb_le x y : Qleb x y = true <-> (x <= y)%Q.
Proof.
  unfold Qleb. rewrite Qle_alt.
  destruct (x ?= y)%Q; split; congruence.
Qed.

Lemma Qltb_false_leb x y : Qltb x y = false <-> Qleb y x = true.
Proof.
  rewrite Qleb_le. split.
  - intros H. apply Qnot_lt_le. intros Hlt. apply Qltb_lt in Hlt. congruence.
  - intros H. destruct (Qltb x y) eqn:E; [|reflexivity].
    apply Qltb_lt in E. exfalso. eapply Qlt_not_le; eauto.
Qed.

(** Away from NaN the order is total: [a < b] fails exactly when [a >= b]. *)
Lemma lt_false_ge a b :
  a <> NaN -> b <> NaN -> (lt a b = false <-> ge a b = true).
Proof.
  intros Ha Hb. unfold ge.
  destruct a as [x| | |], b as [y| | |]; simpl; try congruence;
    try apply Qltb_false_leb; split; congruence.
Qed.

Lemma lt_NaN_l b : lt NaN b = false.
Proof. reflexivity. Qed.

Lemma lt_NaN_r a : lt a NaN = false.
Proof. destruct a; reflexivity. Qed.

Lemma ge_NaN_l b : ge NaN b = false.
Proof. destruct b; reflexivity. Qed.

End JsNumberFacts.

(** ** The dummy history generator and the store *)

Module MachineStoreFacts.
Import JsNumber MachineStore.

Section Generator.

Variable now : Z.
Variable toISOString : Z -> string.
Variable random : nat -> Q.
Variable sin : Q -> Q.

#[local] Abbreviation point := (dataPoint now random sin).
#[local] Abbreviation generated := (generatePerformanceData now random sin).

(** The loop appends the points of the next [remaining] indices. *)
Lemma pushLoop_seq remaining i data :
  pushLoop now random sin remaining i data = data ++ map point (seq i remaining).
Proof.
  revert i data. induction remaining as [|n IH]; intros i data; simpl.
  - by rewrite app_nil_r.
  - rewrite IH. by rewrite <- app_assoc.
Qed.

Lemma generatePerformanceData_seq : generated = map point (seq 0 288).
Proof. unfold generatePerformanceData. by rewrite pushLoop_seq. Qed.

Lemma generatePerformanceData_length : length generated = 288%nat.
Proof. rewrite generatePerformanceData_seq, length_map. apply length_seq. Qed.

Lemma lookup_points n i p :
  map point (seq 0 n) !! i = Some p <-> (i < n)%nat /\ p = point i.
Proof.
  rewrite list_lookup_fmap. split.
  - intros H. destruct (seq 0 n !! i) as [j|] eqn:E; [|discriminate].
    apply lookup_seq in E as [-> ?]. injection H as <-. auto.
  - intros [Hi ->]. by rewrite (lookup_seq_lt 0 n i Hi).
Qed.

Lemma generatePerformanceData_lookup i p :
  generated !! i = Some p <-> (i < 288)%nat /\ p = point i.
Proof. rewrite generatePerformanceData_seq. apply lookup_points. Qed.

Lemma timestamp_point i :
  PerformanceMetric.timestamp (point i) = now - 86400000 + 300000 * Z.of_nat i.
Proof. unfold dataPoint, hours24. simpl. lia. Qed.

Hypothesis random_range : forall k, (0 <= random k /\ random k < 1)%Q.
Hypothesis sin_range : forall x, (-1 <= sin x /\ sin x <= 1)%Q.

Lemma value_point_range i :
  (70 <= PerformanceMetric.value (point i) /\
   PerformanceMetric.value (point i) <= 100)%Q.
Proof.
  unfold dataPoint. simpl.
  pose proof (random_range i) as [? ?].
  pose proof (sin_range (inject_Z (Z.of_nat i) / 12)) as [? ?].
  split; lra.
Qed.

End Generator.

Lemma performanceHistory_initial now toISOString random sin :
  performanceHistory (useMachineStore now toISOString random sin)
  = generatePerformanceData now random sin.
Proof. reflexivity. Qed.

(** No action of the store writes [performanceHistory]. *)
Lemma dispatch_performanceHistory st a :
  performanceHistory (dispatch st a) = performanceHistory st.
Proof. by destruct a. Qed.

Lemma run_performanceHistory actions st :
  performanceHistory (run actions st) = performanceHistory st.
Proof.
  revert st. induction actions as [|a actions IH]; intros st; [done|].
  unfold run in *. simpl. by rewrite IH, dispatch_performanceHistory.
Qed.

(** C7 (counterexample): the history does not grow without bound; no
    reachable state of the store holds more than 288 entries. *)
Lemma history_growth_refuted : ~ history_grows_without_bound.
Proof.
  intros H. destruct (H 288%nat) as (now & iso & random & sin & actions & Hlt).
  rewrite run_performanceHistory, performanceHistory_initial in Hlt.
  rewrite generatePerformanceData_length in Hlt. lia.
Qed.

(** C7 (amended): the performance history is built once, with exactly 288
    entries, and the store's only action never changes it: in every
    reachable state of the store the history is the generated array and
    its length is 288. *)
Theorem history_length_fixed now toISOString random sin actions :
  let st := run actions (useMachineStore now toISOString random sin) in
  performanceHistory st = generatePerformanceData now random sin /\
  length (performanceHistory st) = 288%nat.
Proof.
  intros st. subst st. rewrite run_performanceHistory, performanceHistory_initial.
  split; [reflexivity | apply generatePerformanceData_length].
Qed.

(** C8: a call of [generatePerformanceData] returns exactly 288 points; the
    first timestamp is [now] minus 24 hours, consecutive timestamps differ
    by exactly 300000 ms (so they increase strictly), and every value lies
    in [70, 100], whatever [Math.random()] (in [0, 1)) and [Math.sin] (in
    [-1, 1]) return. *)
Theorem generatePerformanceData_shape now random sin :
  (forall k, (0 <= random k /\ random k < 1)%Q) ->
  (forall x, (-1 <= sin x /\ sin x <= 1)%Q) ->
  let data := generatePerformanceData now random sin in
  length data = 288%nat /\
  (exists p, data !! 0%nat = Some p /\
             PerformanceMetric.timestamp p = now - 24 * 60 * 60 * 1000) /\
  (forall i p q, data !! i = Some p -> data !! S i = Some q ->
     PerformanceMetric.timestamp q = PerformanceMetric.timestamp p + 300000) /\
  (forall i j p q, (i < j)%nat -> data !! i = Some p -> data !! j = Some q ->
     PerformanceMetric.timestamp p < PerformanceMetric.timestamp q) /\
  (forall p, p ∈ data ->
     (70 <= PerformanceMetric.value p /\ PerformanceMetric.value p <= 100)%Q).
Proof.
  intros Hrandom Hsin data. subst data.
  split; [apply generatePerformanceData_length|].
  split.
  { exists (dataPoint now random sin 0). split.
    - apply generatePerformanceData_lookup. split; [lia | done].
    - rewrite timestamp_point. lia. }
  split.
  { intros i p q Hp Hq.
    apply generatePerformanceData_lookup in Hp as [_ ->].
    apply generatePerformanceData_lookup in Hq as [_ ->].
    rewrite !timestamp_point. lia. }
  split.
  { intros i j p q Hij Hp Hq.
    apply generatePerformanceData_lookup in Hp as [_ ->].
    apply generatePerformanceData_lookup in Hq as [_ ->].
    rewrite !timestamp_point. lia. }
  intros p Hp. apply list_elem_of_lookup in Hp as [i Hi].
  apply generatePerformanceData_lookup in Hi as [_ ->].
  by apply value_point_range.
Qed.

Lemma sin_clamped_range x : (-1 <= Samples.sin_clamped x /\ Samples.sin_clamped x <= 1)%Q.
Proof.
  unfold Samples.sin_clamped. split.
  - apply Q.le_max_l.
  - apply Q.max_lub; [lra | apply Q.le_min_l].
Qed.

(** The witness of C8: the clock at 1.7e12 ms, [Math.random()] always 1/2. *)
Lemma generatePerformanceData_shape_witness :
  let data := generatePerformanceData 1700000000000 (fun _ => 1 # 2) Samples.sin_clamped in
  length data = 288%nat /\
  (exists p, data !! 0%nat = Some p /\
             PerformanceMetric.timestamp p = 1700000000000 - 24 * 60 * 60 * 1000) /\
  (forall i p q, data !! i = Some p -> data !! S i = Some q ->
     PerformanceMetric.timestamp q = PerformanceMetric.timestamp p + 300000) /\
  (forall i j p q, (i < j)%nat -> data !! i = Some p -> data !! j = Some q ->
     PerformanceMetric.timestamp p < PerformanceMetric.timestamp q) /\
  (forall p, p ∈ data ->
     (70 <= PerformanceMetric.value p /\ PerformanceMetric.value p <= 100)%Q).
Proof.
  apply (generatePerformanceData_shape 1700000000000 (fun _ => 1 # 2) Samples.sin_clamped).
  - intros _. split; lra.
  - apply sin_clamped_range.
Defined.

End MachineStoreFacts.

(** ** The dashboard page *)

Module DashboardFacts.
Import JsNumber JsNumberFacts DashboardPage.

Lemma getSystemStatus_Finite q :
  getSystemStatus (Finite q) =
    if Qltb q 50 then StatusCard.error
    else if Qltb q 80 then StatusCard.warning else StatusCard.normal.
Proof. reflexivity. Qed.

(** C9 (counterexample): at [NaN] both tests [systemHealth < 50] and
    [systemHealth < 80] are false, so the status is ['normal'], while
    [NaN >= 80] is false. *)
Lemma system_status_claim_fails_at_NaN : ~ system_status_claim.
Proof.
  intros H. destruct (H NaN) as (_ & _ & [Hn _]).
  specialize (Hn eq_refl). discriminate Hn.
Qed.

(** C9 (amended): the status is ['error'] exactly when [systemHealth < 50],
    ['warning'] exactly when [50 <= systemHealth < 80], and ['normal']
    exactly when [systemHealth >= 80] or [systemHealth] is NaN; it is never
    ['offline']. *)
Theorem getSystemStatus_spec (systemHealth : number) :
  (getSystemStatus systemHealth = StatusCard.error
     <-> lt systemHealth (Finite 50) = true) /\
  (getSystemStatus systemHealth = StatusCard.warning
     <-> ge systemHealth (Finite 50) = true /\ lt systemHealth (Finite 80) = true) /\
  (getSystemStatus systemHealth = StatusCard.normal
     <-> ge systemHealth (Finite 80) = true \/ systemHealth = NaN) /\
  getSystemStatus systemHealth <> StatusCard.offline.
Proof.
  destruct systemHealth as [q| | |].
  - rewrite getSystemStatus_Finite. unfold ge. simpl.
    destruct (Qltb q 50) eqn:E50; destruct (Qltb q 80) eqn:E80;
      try (apply Qltb_lt in E50); try (apply Qltb_lt in E80);
      try (apply Qltb_false_leb in E50; pose proof E50 as L50; apply Qleb_le in L50);
      try (apply Qltb_false_leb in E80; pose proof E80 as L80; apply Qleb_le in L80).
    + repeat split; try congruence.
      * intros [H _]. apply Qleb_le in H. lra.
      * intros [H|H]; [apply Qleb_le in H; lra | discriminate].
    + lra.
    + repeat split; try congruence; auto.
      * intros [H|H]; [apply Qleb_le in H; lra | discriminate].
    + repeat split; try congruence; auto.
      intros [_ H]. discriminate.
  - cbv. repeat split; try congruence; auto. intros [? ?]; congruence.
  - cbv. repeat split; try congruence.
    + intros [? ?]; congruence.
    + intros [?|?]; congruence.
  - cbv. repeat split; try congruence; auto. intros [? ?]; congruence.
Qed.

(** The store's value 89.5 shows as ['normal']. *)
Example getSystemStatus_store now toISOString random sin :
  getSystemStatus
    (MachineStore.systemHealth (MachineStore.useMachineStore now toISOString random sin))
  = StatusCard.normal.
Proof. reflexivity. Qed.

Lemma fold_utilization_map (machines : list Machine.t) (acc : float) :
  fold_left (fun sum machine => PrimFloat.add sum (Machine.utilization machine))
    machines acc
  = fold_left PrimFloat.add (map Machine.utilization machines) acc.
Proof.
  revert acc. induction machines as [|m machines IH]; intros acc; simpl; [done|].
  apply IH.
Qed.

(** A sum of doubles added from the left is the sum that IEEE 754
    specifies, every addition rounded. *)
Lemma Prim2SF_sum (values : list float) (acc : float) :
  Prim2SF (fold_left PrimFloat.add values acc)
  = fold_left SF64add (map Prim2SF values) (Prim2SF acc).
Proof.
  revert acc. induction values as [|v values IH]; intros acc; simpl; [done|].
  by rewrite IH, FloatAxioms.add_spec.
Qed.

Lemma Prim2SF_of_length (n : nat) :
  Prim2SF (Double.of_length n)
  = binary_normalize prec emax (Z.of_nat n mod 2 ^ 63) 0 false.
Proof.
  unfold Double.of_length. rewrite of_uint63_spec, Uint63.of_Z_spec. reflexivity.
Qed.

(** C10, as the code has it: [averageUtilization] is the sum of the
    machines' utilizations, added from the left starting at 0, divided by
    the number of machines, in double arithmetic: every addition and the
    division round to the nearest double as IEEE 754 specifies, and the sum
    may overflow to an infinity.  For the empty list the divisor
    [machines.length] is zero and the result is NaN. *)
Theorem averageUtilization_double (machines : list Machine.t) :
  averageUtilization machines
    = PrimFloat.div
        (fold_left PrimFloat.add (map Machine.utilization machines) 0%float)
        (Double.of_length (length machines)) /\
  Prim2SF (averageUtilization machines)
    = SF64div
        (fold_left SF64add
           (map (fun machine => Prim2SF (Machine.utilization machine)) machines)
           (S754_zero false))
        (binary_normalize prec emax (Z.of_nat (length machines) mod 2 ^ 63) 0 false) /\
  (machines = [] ->
     Double.of_length (length machines) = 0%float /\
     averageUtilization machines = nan).
Proof.
  split; [|split].
  - unfold averageUtilization. by rewrite fold_utilization_map.
  - unfold averageUtilization.
    rewrite FloatAxioms.div_spec, fold_utilization_map, Prim2SF_sum, Prim2SF_of_length.
    rewrite map_map. reflexivity.
  - intros ->. split; reflexivity.
Qed.

(** C10, as stated, fails: two machines that run at the utilization
    [2^1023], a finite double, have the arithmetic mean [2^1023], but their
    sum overflows and [averageUtilization] is [Infinity]. *)
Lemma arithmetic_mean_refuted : ~ arithmetic_mean_claim.
Proof.
  intros H.
  pose (huge := 0x1p1023%float).
  destruct (H [Samples.machine huge; Samples.machine huge]
              [default 0%Q (Double.exact huge); default 0%Q (Double.exact huge)])
    as (q & Hq & _).
  - discriminate.
  - vm_compute. reflexivity.
  - vm_compute in Hq. discriminate.
Qed.

Example averageUtilization_overflow :
  averageUtilization [Samples.machine 0x1p1023; Samples.machine 0x1p1023] = infinity.
Proof. vm_compute. reflexivity. Qed.

(** The three dummy machines, utilizations 85.2, 0 and 0: the double
    nearest to 85.2 is a little more than 85.2, and a third of it rounds to
    28.400000000000002, which is neither 28.4 nor the double nearest to
    it. *)
Example averageUtilization_dummy :
  averageUtilization (MachineStore.dummyMachines 1700000000000 Samples.iso0)
  = 28.400000000000002%float /\
  28.400000000000002%float <> 28.4%float.
Proof. split; [vm_compute; reflexivity|]. intros H. by vm_compute in H. Qed.

(** The sum of 50, 50 and 49.99999999999999 rounds to 150: the average is
    50 although the mean of the three values is below 50. *)
Example averageUtilization_rounds_up :
  averageUtilization
    [Samples.machine 50; Samples.machine 50; Samples.machine 49.99999999999999]
  = 50%float.
Proof. vm_compute. reflexivity. Qed.

Example averageUtilization_empty : averageUtilization [] = nan.
Proof. reflexivity. Qed.

End DashboardFacts.

(** ** 3 The alert lifecycle *)

Module AlertFacts.
Import Pipeline Automation.

Lemma acknowledge_Ok actor t a a' :
  acknowledge actor t a = Ok a' ->
  state a = Active /\ state a' = Acknowledged /\ actor <> ""%string /\
  acknowledged_by a' = Some actor /\ acknowledged_at a' = Some t /\
  triggered_at a <= t.
Proof.
  intros H. lifecycle_cases a; try discriminate.
  injection H as <-. simpl. repeat split; auto; lia.
Qed.

Lemma acknowledge_succeeds actor t a :
  state a = Active -> actor <> ""%string -> triggered_at a <= t ->
  exists a', acknowledge actor t a = Ok a'.
Proof.
  intros Hs Ha Ht. lifecycle_cases a; try discriminate; try done; try lia; eauto.
Qed.

Lemma resolve_Ok actor t a a' :
  resolve actor t a = Ok a' ->
  (state a = Active \/ state a = Acknowledged) /\ state a' = Resolved /\
  actor <> ""%string /\
  resolved_by a' = Some actor /\ resolved_at a' = Some t /\
  triggered_at a <= t.
Proof.
  intros H. lifecycle_cases a; try discriminate;
    injection H as <-; simpl; repeat split; auto; lia.
Qed.

Lemma resolve_succeeds actor t a :
  state a = Active \/ state a = Acknowledged ->
  actor <> ""%string -> triggered_at a <= t ->
  exists a', resolve actor t a = Ok a'.
Proof.
  intros Hs Ha Ht.
  lifecycle_cases a; destruct Hs; try discriminate; try done; try lia; eauto.
Qed.

Lemma suppress_Active a :
  state a = Active ->
  exists a', suppress a = Ok a' /\ suppressed a' = true /\ state a' = Active.
Proof.
  intros Hs. unfold suppress, set_suppressed. rewrite Hs. eauto.
Qed.

Lemma step_edge a e : edge (state a) (state (step a e)) = true.
Proof. destruct e; lifecycle_cases a; try rewrite ?Heqa0; by try done. Qed.

Lemma step_triggered_at a e : triggered_at (step a e) = triggered_at a.
Proof. destruct e; lifecycle_cases a; done. Qed.

Lemma step_instants_ordered a e :
  instants_ordered a -> instants_ordered (step a e).
Proof.
  intros [Hack Hres]. unfold instants_ordered.
  destruct e; lifecycle_cases a; split; intros t' Ht'; simpl in *;
    try (injection Ht' as <-; lia); auto.
Qed.

Lemma lifecycle_invariant events : forall a,
  instants_ordered a ->
  instants_ordered (lifecycle events a) /\
  triggered_at (lifecycle events a) = triggered_at a.
Proof.
  induction events as [|e events IH]; intros a Ha; [done|].
  unfold lifecycle in *. simpl.
  destruct (IH (step a e) (step_instants_ordered a e Ha)) as [H1 H2].
  split; [done|]. by rewrite H2, step_triggered_at.
Qed.

(** Once Resolved, an event changes the metadata at most. *)
Lemma step_Resolved a e :
  state a = Resolved ->
  state (step a e) = Resolved /\
  with_metadata (metadata a) (step a e) = a.
Proof.
  intros Hs. destruct a. simpl in Hs. subst.
  destruct e; cbv [step apply_event acknowledge resolve suppress unsuppress
    set_suppressed observe annotate with_metadata state]; simpl; done.
Qed.

Lemma with_metadata_idem m m' a :
  with_metadata m (with_metadata m' a) = with_metadata m a.
Proof. reflexivity. Qed.

Lemma lifecycle_Resolved events : forall a,
  state a = Resolved ->
  state (lifecycle events a) = Resolved /\
  with_metadata (metadata a) (lifecycle events a) = a.
Proof.
  induction events as [|e events IH]; intros a Hs.
  - split; [done|]. by destruct a.
  - unfold lifecycle in *. simpl.
    destruct (step_Resolved a e Hs) as [Hs' Ha'].
    destruct (IH (step a e) Hs') as [Hs'' Ha''].
    split; [done|].
    rewrite <- (with_metadata_idem _ (metadata (step a e))).
    by rewrite Ha'', Ha'.
Qed.

(** C1: [trigger] creates an Active instance; [acknowledge] succeeds only
    from Active and with an actor identity, and yields Acknowledged with the
    actor recorded; [resolve] succeeds only from Active or Acknowledged and
    with an actor identity, and yields Resolved; an Active instance can be
    suppressed without leaving Active; every event follows an edge of the
    state machine; every instance reached from a trigger has
    [acknowledged_at >= triggered_at] and [resolved_at >= triggered_at]; and
    once Resolved, events change the metadata at most. *)
Theorem alert_lifecycle :
  (forall rule t,
     state (trigger rule t) = Active /\ triggered_at (trigger rule t) = t) /\
  (forall actor t a a',
     acknowledge actor t a = Ok a' ->
     state a = Active /\ state a' = Acknowledged /\ actor <> ""%string /\
     acknowledged_by a' = Some actor /\ acknowledged_at a' = Some t /\
     triggered_at a <= t) /\
  (forall actor t a,
     state a = Active -> actor <> ""%string -> triggered_at a <= t ->
     exists a', acknowledge actor t a = Ok a') /\
  (forall actor t a a',
     resolve actor t a = Ok a' ->
     (state a = Active \/ state a = Acknowledged) /\ state a' = Resolved /\
     actor <> ""%string /\
     resolved_by a' = Some actor /\ resolved_at a' = Some t /\
     triggered_at a <= t) /\
  (forall actor t a,
     state a = Active \/ state a = Acknowledged ->
     actor <> ""%string -> triggered_at a <= t ->
     exists a', resolve actor t a = Ok a') /\
  (forall a,
     state a = Active ->
     exists a', suppress a = Ok a' /\ suppressed a' = true /\ state a' = Active) /\
  (forall a e, edge (state a) (state (step a e)) = true) /\
  (forall rule t0 events,
     let a := lifecycle events (trigger rule t0) in
     triggered_at a = t0 /\
     (forall t, acknowledged_at a = Some t -> t0 <= t) /\
     (forall t, resolved_at a = Some t -> t0 <= t)) /\
  (forall a events,
     state a = Resolved ->
     state (lifecycle events a) = Resolved /\
     with_metadata (metadata a) (lifecycle events a) = a).
Proof.
  split; [done|].
  split; [apply acknowledge_Ok|].
  split; [apply acknowledge_succeeds|].
  split; [apply resolve_Ok|].
  split; [apply resolve_succeeds|].
  split; [apply suppress_Active|].
  split; [apply step_edge|].
  split; [|intros a events; apply lifecycle_Resolved].
  intros rule t0 events a.
  destruct (lifecycle_invariant events (trigger rule t0)) as [[Hack Hres] Ht].
  { split; intros t H; discriminate H. }
  subst a. rewrite Ht in *. simpl in *. auto.
Qed.

(** The witness of C1: triggered at 10 s, acknowledged by "operator" at
    15 s, resolved at 20 s, then annotated and acknowledged again. *)
Lemma alert_lifecycle_witness :
  let a := lifecycle [Acknowledge "operator" 15000; Resolve "operator" 20000;
                      Annotate "note" "checked"; Acknowledge "operator" 5000]
             (trigger "R1" 10000) in
  triggered_at a = 10000 /\
  (forall t, acknowledged_at a = Some t -> 10000 <= t) /\
  (forall t, resolved_at a = Some t -> 10000 <= t).
Proof.
  apply (proj1 (proj2 (proj2 (proj2 (proj2 (proj2 (proj2 (proj2
           alert_lifecycle)))))))).
Defined.

Example alert_scenario :
  let a := lifecycle [Acknowledge "operator" 15000; Resolve "operator" 20000]
             (trigger "R1" 10000) in
  state a = Resolved /\ acknowledged_by a = Some "operator"%string /\
  acknowledged_at a = Some 15000 /\ resolved_at a = Some 20000.
Proof. vm_compute. repeat split. Qed.

End AlertFacts.

(** ** 4.6 The rule engine *)

Module EngineFacts.
Import Pipeline Samples.

(** While the newest instance is Active or Acknowledged, a reading never
    adds an instance: it leaves the instance or extends its observation. *)
Lemma evaluate_open rule r st a rest :
  instances st = a :: rest ->
  state a = Active \/ state a = Acknowledged ->
  exists a', instances (evaluate rule r st) = a' :: rest /\
             state a' = state a /\ triggered_at a' = triggered_at a.
Proof.
  intros Hi Hs. unfold evaluate.
  destruct (enabled rule && scope_matches (scope rule) r); [|eauto].
  destruct (satisfied (condition rule) (value r)); simpl; [|eauto].
  destruct (min_duration (condition rule) <=? _); simpl; [|eauto].
  rewrite Hi. unfold observe.
  destruct Hs as [Hs|Hs]; rewrite Hs; simpl; eauto.
Qed.

Lemma engine_step_open rule op st a rest :
  instances st = a :: rest ->
  state a = Active \/ state a = Acknowledged ->
  exists a', instances (engine_step rule st op) = a' :: rest /\
             (state a' = Active \/ state a' = Acknowledged) /\
             triggered_at a' = triggered_at a.
Proof.
  intros Hi Hs. destruct op as [r|actor t]; simpl.
  - destruct (evaluate_open rule r st a rest Hi Hs) as (a' & Hi' & Hs' & Ht').
    exists a'. rewrite Hs'. auto.
  - unfold engine_acknowledge. rewrite Hi.
    destruct (acknowledge actor t a) as [a'|err] eqn:Hack; [|eauto].
    exists a'. split; [done|].
    unfold acknowledge in Hack. destruct (state a); try discriminate.
    case_bool_decide; [discriminate|].
    destruct (t <? triggered_at a); [discriminate|].
    injection Hack as <-. simpl. auto.
Qed.

(** Whatever readings and acknowledgments follow, an open instance stays the
    newest one: nothing is added in front of it. *)
Lemma engine_run_open rule ops : forall st a rest,
  instances st = a :: rest ->
  state a = Active \/ state a = Acknowledged ->
  exists a', instances (engine_run rule ops st) = a' :: rest /\
             (state a' = Active \/ state a' = Acknowledged) /\
             triggered_at a' = triggered_at a.
Proof.
  induction ops as [|op ops IH]; intros st a rest Hi Hs; [eauto|].
  unfold engine_run in *. simpl.
  destruct (engine_step_open rule op st a rest Hi Hs) as (a1 & Hi1 & Hs1 & Ht1).
  destruct (IH _ a1 rest Hi1 Hs1) as (a2 & Hi2 & Hs2 & Ht2).
  exists a2. by rewrite Ht2.
Qed.

(** Readings that satisfy the condition for less than the minimum duration
    leave an armed engine without instance as it is. *)
Lemma feed_below rule t0 rs :
  enabled rule = true ->
  Forall (fun r => scope_matches (scope rule) r = true /\
                   satisfied (condition rule) (value r) = true /\
                   timestamp r - t0 < min_duration (condition rule)) rs ->
  feed rule rs {| satisfied_since := Some t0; instances := [] |}
  = {| satisfied_since := Some t0; instances := [] |}.
Proof.
  intros He. induction rs as [|r rs IH]; intros Hall; [done|].
  apply Forall_cons in Hall as [(Hm & Hs & Ht) Hall].
  unfold feed in *. simpl. rewrite <- (IH Hall) at 2. f_equal.
  unfold evaluate. rewrite He, Hm, Hs. simpl.
  destruct (Z.leb_spec (min_duration (condition rule)) (timestamp r - t0)); [lia|done].
Qed.

Lemma feed_app rule rs more st :
  feed rule (rs ++ more) st = feed rule more (feed rule rs st).
Proof. unfold feed. apply fold_left_app. Qed.

(** The first satisfied reading arms the debounce, and triggers at once only
    when the minimum duration is not positive. *)
Lemma evaluate_first rule r :
  enabled rule = true ->
  scope_matches (scope rule) r = true ->
  satisfied (condition rule) (value r) = true ->
  evaluate rule r fresh =
    if min_duration (condition rule) <=? 0
    then {| satisfied_since := Some (timestamp r);
            instances := [trigger (rule_id rule) (timestamp r)] |}
    else {| satisfied_since := Some (timestamp r); instances := [] |}.
Proof.
  intros He Hm Hs. unfold evaluate, fresh. rewrite He, Hm, Hs. simpl.
  by rewrite Z.sub_diag.
Qed.

(** On an armed engine without instance, a satisfied reading at or past the
    minimum duration triggers. *)
Lemma evaluate_trigger rule t0 r :
  enabled rule = true ->
  scope_matches (scope rule) r = true ->
  satisfied (condition rule) (value r) = true ->
  min_duration (condition rule) <= timestamp r - t0 ->
  instances (evaluate rule r {| satisfied_since := Some t0; instances := [] |})
  = [trigger (rule_id rule) (timestamp r)].
Proof.
  intros He Hm Hs Hd. unfold evaluate. rewrite He, Hm, Hs. simpl.
  destruct (Z.leb_spec (min_duration (condition rule)) (timestamp r - t0)); [done|lia].
Qed.

(** C4: for an enabled rule with minimum duration [D], fed from a fresh
    state with readings that satisfy its condition at the instants [t0],
    [t0 + p], ..., [t0 + k * p]: when the run spans [D] minus one sample
    ([k * p = D - p]) no instance exists; when it spans exactly [D]
    ([k * p = D]) exactly one instance exists, it is Active and was
    triggered at [t0 + D]; and while the newest instance is Active or
    Acknowledged, whatever readings and acknowledgments follow add no
    instance. *)
Theorem debounce_exactly_once rule (rs : list Reading) (t0 p : Z) (k : nat) :
  enabled rule = true ->
  0 < p ->
  length rs = S k ->
  (forall i r, rs !! i = Some r ->
     timestamp r = t0 + Z.of_nat i * p /\
     scope_matches (scope rule) r = true /\
     satisfied (condition rule) (value r) = true) ->
  let D := min_duration (condition rule) in
  (Z.of_nat k * p = D - p -> instances (feed rule rs fresh) = []) /\
  (Z.of_nat k * p = D ->
     exists a, instances (feed rule rs fresh) = [a] /\
               state a = Active /\ triggered_at a = t0 + D /\
               forall ops,
                 exists a', instances (engine_run rule ops (feed rule rs fresh)) = [a'] /\
                            (state a' = Active \/ state a' = Acknowledged) /\
                            triggered_at a' = t0 + D) /\
  (forall st a rest ops,
     instances st = a :: rest ->
     state a = Active \/ state a = Acknowledged ->
     exists a', instances (engine_run rule ops st) = a' :: rest /\
                (state a' = Active \/ state a' = Acknowledged) /\
                triggered_at a' = triggered_at a).
Proof.
  intros He Hp Hlen Hrs D. subst D.
  destruct rs as [|r0 rs']; [discriminate|].
  simpl in Hlen. injection Hlen as Hlen.
  destruct (Hrs 0%nat r0 eq_refl) as (Ht0 & Hm0 & Hs0).
  assert (timestamp r0 = t0) as Ht0' by lia. clear Ht0.
  assert (forall i r, rs' !! i = Some r ->
            scope_matches (scope rule) r = true /\
            satisfied (condition rule) (value r) = true /\
            timestamp r - t0 = (Z.of_nat i + 1) * p) as Hrs'.
  { intros i r Hi. destruct (Hrs (S i) r Hi) as (Ht & Hm & Hs).
    repeat split; auto. lia. }
  assert (feed rule (r0 :: rs') fresh = feed rule rs' (evaluate rule r0 fresh)) as Hfeed
    by reflexivity.
  rewrite (evaluate_first rule r0 He Hm0 Hs0), Ht0' in Hfeed.
  split; [|split].
  - intros Hk. rewrite Hfeed.
    destruct (Z.leb_spec (min_duration (condition rule)) 0); [nia|].
    rewrite feed_below; [done | done |].
    apply Forall_lookup. intros i r Hi.
    destruct (Hrs' i r Hi) as (Hm & Hs & Ht). repeat split; auto.
    apply lookup_lt_Some in Hi. nia.
  - intros Hk.
    assert (exists a, instances (feed rule (r0 :: rs') fresh) = [a] /\
                      state a = Active /\
                      triggered_at a = t0 + min_duration (condition rule))
      as (a & Ha & Hsa & Hta).
    { rewrite Hfeed. destruct rs' as [|rk mid _] using rev_ind.
      - simpl in Hlen. subst k. simpl in Hk.
        destruct (Z.leb_spec (min_duration (condition rule)) 0); [|lia].
        eexists. split; [reflexivity|]. simpl. split; [done|]. lia.
      - rewrite length_app in Hlen. simpl in Hlen.
        destruct (Z.leb_spec (min_duration (condition rule)) 0); [nia|].
        rewrite feed_app, feed_below; [| done |].
        + destruct (Hrs' (length mid) rk) as (Hm & Hs & Ht).
          { by rewrite list_lookup_middle. }
          unfold feed. simpl. rewrite evaluate_trigger; [| done | done | done |].
          * eexists. split; [reflexivity|]. simpl. split; [done|]. nia.
          * nia.
        + apply Forall_lookup. intros i r Hi.
          pose proof (lookup_lt_Some _ _ _ Hi) as Hlt.
          destruct (Hrs' i r) as (Hm & Hs & Ht).
          { by rewrite lookup_app_l. }
          repeat split; auto. nia. }
    exists a. repeat split; auto.
    intros ops.
    destruct (engine_run_open rule ops _ a [] Ha) as (a' & Ha' & Hsa' & Hta'); [auto|].
    exists a'. by rewrite Hta'.
  - intros st a rest ops. apply engine_run_open.
Qed.

(** The witness of C4: [value > 80] sustained 10 s, a reading of 85 every
    5 s from 0 to 10 s. *)
Lemma debounce_exactly_once_witness :
  exists a, instances (feed over80 [hot 0; hot 5000; hot 10000] fresh) = [a] /\
            state a = Active /\ triggered_at a = 0 + 10000 /\
            forall ops,
              exists a',
                instances (engine_run over80 ops
                             (feed over80 [hot 0; hot 5000; hot 10000] fresh)) = [a'] /\
                (state a' = Active \/ state a' = Acknowledged) /\
                triggered_at a' = 0 + 10000.
Proof.
  assert (forall i r, [hot 0; hot 5000; hot 10000] !! i = Some r ->
            timestamp r = 0 + Z.of_nat i * 5000 /\
            scope_matches (scope over80) r = true /\
            satisfied (condition over80) (value r) = true) as Hrs.
  { intros [|[|[|i]]] r H; [| | |discriminate H];
      injection H as <-; repeat split; reflexivity. }
  apply (proj1 (proj2 (debounce_exactly_once over80 [hot 0; hot 5000; hot 10000]
                         0 5000 2 eq_refl eq_refl eq_refl Hrs))).
  reflexivity.
Defined.

(** The scenario of the specification: above 80 from 0 s to 12 s, one
    instance Active from 10 s; acknowledged at 15 s. *)
Example alert_scenario_engine :
  let st := engine_run over80
              [Sample (hot 0); Sample (hot 4000); Sample (hot 8000);
               Sample (hot 10000); Sample (hot 12000);
               OperatorAcknowledge "operator" 15000] fresh in
  exists a, instances st = [a] /\ state a = Acknowledged /\
            triggered_at a = 10000 /\ last_observed_at a = 12000 /\
            acknowledged_by a = Some "operator"%string.
Proof. eexists. vm_compute. repeat split. Qed.

Example one_sample_short :
  instances (feed over80 [hot 0; hot 5000] fresh) = [].
Proof. reflexivity. Qed.

End EngineFacts.

(** ** The cards of the dashboard page *)

Module CardFacts.
Import JsNumber JsNumberFacts DashboardPage DashboardView.

#[local] Open Scope nat_scope.

#[local] Abbreviation count_step :=
  (fun acc alert =>
     match Alert.severity alert with
     | high => mkCounts (S (c_high acc)) (c_medium acc) (c_low acc)
     | medium => mkCounts (c_high acc) (S (c_medium acc)) (c_low acc)
     | low => mkCounts (c_high acc) (c_medium acc) (S (c_low acc))
     end).

(** The reduction adds to each counter the alerts of its severity. *)
Lemma alertCounts_fold alerts : forall acc,
  fold_left count_step alerts acc
  = mkCounts (c_high acc + length (alertsOf high alerts))
             (c_medium acc + length (alertsOf medium alerts))
             (c_low acc + length (alertsOf low alerts)).
Proof.
  induction alerts as [|a alerts IH]; intros [h m l]; simpl.
  - f_equal; lia.
  - rewrite IH. unfold alertsOf. rewrite !filter_cons.
    destruct (Alert.severity a); simpl;
      repeat case_decide; try congruence; simpl; f_equal; lia.
Qed.

Lemma alertsOf_partition alerts :
  length (alertsOf high alerts) + length (alertsOf medium alerts)
    + length (alertsOf low alerts) = length alerts.
Proof.
  induction alerts as [|a alerts IH]; [done|].
  unfold alertsOf in *. rewrite !filter_cons.
  destruct (Alert.severity a); repeat case_decide; try congruence;
    cbn [length] in *; lia.
Qed.

(** X1: each counter of [alertCounts] is the number of alerts of its
    severity, acknowledged or not, and the three counters add up to
    [alerts.length], the number of items the alert list renders. *)
Theorem alertCounts_spec (alerts : list Alert.t) :
  c_high (alertCounts alerts) = length (alertsOf high alerts) /\
  c_medium (alertCounts alerts) = length (alertsOf medium alerts) /\
  c_low (alertCounts alerts) = length (alertsOf low alerts) /\
  c_high (alertCounts alerts) + c_medium (alertCounts alerts)
    + c_low (alertCounts alerts) = length alerts /\
  length (formattedAlerts alerts) = length alerts.
Proof.
  unfold alertCounts. rewrite alertCounts_fold. simpl.
  repeat split; try done.
  - apply alertsOf_partition.
  - unfold formattedAlerts. apply length_map.
Qed.

Lemma alertsOf_positive s alerts :
  Nat.ltb 0 (length (alertsOf s alerts)) = true
  <-> exists a, a ∈ alerts /\ Alert.severity a = s.
Proof.
  rewrite Nat.ltb_lt. unfold alertsOf. split.
  - intros H. destruct (filter _ alerts) as [|a l] eqn:E; [simpl in H; lia|].
    assert (a ∈ filter (fun alert => Alert.severity alert = s) alerts) as Hin
      by (rewrite E; left).
    apply list_elem_of_filter in Hin as [? ?]. eauto.
  - intros (a & Ha & Hs).
    assert (a ∈ filter (fun alert => Alert.severity alert = s) alerts) as Hin
      by by apply list_elem_of_filter.
    destruct (filter _ alerts); [by apply elem_of_nil in Hin | simpl; lia].
Qed.

Lemma activeAlertsStatus_counts (l : list Alert.t) :
  activeAlertsStatus l =
    if Nat.ltb 0 (length (alertsOf high l)) then StatusCard.error
    else if Nat.ltb 0 (length (alertsOf medium l)) then StatusCard.warning
    else StatusCard.normal.
Proof.
  unfold activeAlertsStatus, alertCounts. by rewrite alertCounts_fold.
Qed.

Lemma alertsOf_none s (alerts : list Alert.t) :
  Nat.ltb 0 (length (alertsOf s alerts)) = false ->
  forall a, a ∈ alerts -> Alert.severity a <> s.
Proof.
  intros Hc a Ha Hs.
  assert (Nat.ltb 0 (length (alertsOf s alerts)) = true) as Hc'
    by (apply alertsOf_positive; eauto).
  congruence.
Qed.

(** The three cases of the card, by the most severe alert present. *)
Lemma activeAlertsStatus_cases (alerts : list Alert.t) :
  (activeAlertsStatus alerts = StatusCard.error
     <-> exists a, a ∈ alerts /\ Alert.severity a = high) /\
  (activeAlertsStatus alerts = StatusCard.warning
     <-> (forall a, a ∈ alerts -> Alert.severity a <> high) /\
         exists a, a ∈ alerts /\ Alert.severity a = medium) /\
  (activeAlertsStatus alerts = StatusCard.normal
     <-> forall a, a ∈ alerts -> Alert.severity a = low).
Proof.
  rewrite activeAlertsStatus_counts.
  destruct (Nat.ltb 0 (length (alertsOf high alerts))) eqn:Eh.
  { apply alertsOf_positive in Eh as (a & Ha & Hs).
    repeat split; try discriminate; eauto.
    - intros [Hno _]. by destruct (Hno a Ha).
    - intros Hall. specialize (Hall a Ha). congruence. }
  pose proof (alertsOf_none _ _ Eh) as Hno.
  destruct (Nat.ltb 0 (length (alertsOf medium alerts))) eqn:Em.
  { apply alertsOf_positive in Em as (a & Ha & Hs).
    repeat split; try discriminate; eauto.
    - intros (b & Hb & Hsb). by destruct (Hno b Hb).
    - intros Hall. specialize (Hall a Ha). congruence. }
  pose proof (alertsOf_none _ _ Em) as Hnm.
  repeat split; try discriminate; try done.
  - intros (b & Hb & Hsb). by destruct (Hno b Hb).
  - intros [_ (b & Hb & Hsb)]. by destruct (Hnm b Hb).
  - intros _ a Ha. specialize (Hno a Ha). specialize (Hnm a Ha).
    by destruct (Alert.severity a).
Qed.

Lemma alertsOf_severities s : forall alerts alerts' : list Alert.t,
  map Alert.severity alerts' = map Alert.severity alerts ->
  length (alertsOf s alerts') = length (alertsOf s alerts).
Proof.
  induction alerts as [|a alerts IH]; intros [|a' alerts'] Hsev;
    simpl in Hsev; try discriminate; [done|].
  injection Hsev as Ha Hrest. unfold alertsOf in *. rewrite !filter_cons.
  rewrite Ha. specialize (IH _ Hrest).
  case_decide; simpl; by rewrite IH.
Qed.

(** X2: the "Active Alerts" card shows ['error'] exactly when some alert has
    severity high, ['warning'] exactly when none is high and some is
    medium, and ['normal'] exactly when every alert is low (so also without
    alerts); the [acknowledged] flags play no part: two lists with the same
    severities give the same status. *)
Theorem activeAlertsStatus_spec (alerts : list Alert.t) :
  (activeAlertsStatus alerts = StatusCard.error
     <-> exists a, a ∈ alerts /\ Alert.severity a = high) /\
  (activeAlertsStatus alerts = StatusCard.warning
     <-> (forall a, a ∈ alerts -> Alert.severity a <> high) /\
         exists a, a ∈ alerts /\ Alert.severity a = medium) /\
  (activeAlertsStatus alerts = StatusCard.normal
     <-> forall a, a ∈ alerts -> Alert.severity a = low) /\
  (forall alerts' : list Alert.t,
     map Alert.severity alerts' = map Alert.severity alerts ->
     activeAlertsStatus alerts' = activeAlertsStatus alerts).
Proof.
  destruct (activeAlertsStatus_cases alerts) as (He & Hw & Hn).
  split; [exact He | split; [exact Hw | split; [exact Hn |]]].
  intros alerts' Hsev. rewrite !activeAlertsStatus_counts.
  by rewrite !(alertsOf_severities _ alerts alerts' Hsev).
Qed.

(** X3: the icon of the "Active Alerts" card has the colour that the alert
    list gives to the most severe alert present: some alert of the list has
    a tag of the icon's colour and no alert is more severe than it; without
    alerts the icon is green. *)
Theorem activeAlerts_icon_colour (alerts : list Alert.t) :
  (alerts = [] ->
     snd (StatusCardView.getStatusIcon (activeAlertsStatus alerts)) = "#52c41a"%string) /\
  (alerts <> [] ->
     exists a, a ∈ alerts /\
       snd (StatusCardView.getStatusIcon (activeAlertsStatus alerts))
         = AlertList.getSeverityColor (Alert.severity a) /\
       forall b, b ∈ alerts ->
         severityRank (Alert.severity b) <= severityRank (Alert.severity a)).
Proof.
  split; [by intros ->|]. intros Hne.
  destruct (activeAlertsStatus_cases alerts) as (He & Hw & Hn).
  destruct (activeAlertsStatus alerts) eqn:Hs.
  - destruct alerts as [|a alerts]; [done|].
    pose proof (proj1 Hn eq_refl) as Hall.
    exists a. split; [left|]. rewrite (Hall a) by left.
    split; [done|]. intros b Hb. by rewrite (Hall b Hb).
  - destruct (proj1 Hw eq_refl) as (Hno & a & Ha & Hsa).
    exists a. split; [done|]. rewrite Hsa. split; [done|].
    intros b Hb. specialize (Hno b Hb). destruct (Alert.severity b); simpl; try lia.
    done.
  - destruct (proj1 He eq_refl) as (a & Ha & Hsa).
    exists a. split; [done|]. rewrite Hsa. split; [done|].
    intros b Hb. destruct (Alert.severity b); simpl; lia.
  - exfalso. rewrite activeAlertsStatus_counts in Hs.
    destruct (Nat.ltb 0 _); [discriminate|]. destruct (Nat.ltb 0 _); discriminate.
Qed.

(** The witness of X3: the three dummy alerts (high, medium, low). *)
Lemma activeAlerts_icon_colour_witness :
  exists a, a ∈ MachineStore.dummyAlerts 1700000000000 Samples.iso0 /\
    snd (StatusCardView.getStatusIcon
           (activeAlertsStatus (MachineStore.dummyAlerts 1700000000000 Samples.iso0)))
      = AlertList.getSeverityColor (Alert.severity a) /\
    forall b, b ∈ MachineStore.dummyAlerts 1700000000000 Samples.iso0 ->
      severityRank (Alert.severity b) <= severityRank (Alert.severity a).
Proof.
  apply (proj2 (activeAlerts_icon_colour
                  (MachineStore.dummyAlerts 1700000000000 Samples.iso0))).
  discriminate.
Defined.

#[local] Open Scope Q_scope.

Lemma number_le_trans a b c : le a b = true -> le b c = true -> le a c = true.
Proof.
  destruct a as [x| | |], b as [y| | |], c as [z| | |]; simpl; try done.
  rewrite !Qleb_le. apply Qle_trans.
Qed.

(** X5: on the "System Load" gauge of the dashboard (thresholds 60 and 80)
    the progress bar is red exactly when the value is at least 80, yellow
    exactly when it is at least 60 and below 80, and green otherwise, so
    also for NaN; whenever the utilization card warns (value below 50) the
    gauge is green. *)
Theorem systemLoad_gauge_colour (value : number) :
  (GaugeChart.progressColor value systemLoadThresholds = "#ff4d4f"%string
     <-> ge value (Finite 80) = true) /\
  (GaugeChart.progressColor value systemLoadThresholds = "#faad14"%string
     <-> ge value (Finite 60) = true /\ lt value (Finite 80) = true) /\
  (GaugeChart.progressColor value systemLoadThresholds = "#52c41a"%string
     <-> lt value (Finite 60) = true \/ value = NaN) /\
  (utilizationStatus value = StatusCard.warning ->
     GaugeChart.progressColor value systemLoadThresholds = "#52c41a"%string).
Proof.
  unfold GaugeChart.progressColor, utilizationStatus, systemLoadThresholds, ge.
  destruct value as [q| | |]; simpl.
  - destruct (Qleb 80 q) eqn:E80; destruct (Qleb 60 q) eqn:E60;
      destruct (Qltb q 80) eqn:L80; destruct (Qltb q 60) eqn:L60;
      destruct (Qltb q 50) eqn:L50;
      repeat match goal with
             | H : Qleb _ _ = true |- _ => apply Qleb_le in H
             | H : Qltb _ _ = true |- _ => apply Qltb_lt in H
             | H : Qleb ?x ?y = false |- _ =>
                 assert (y < x) by (apply Qnot_le_lt; intros Hle;
                                    apply Qleb_le in Hle; congruence);
                 clear H
             | H : Qltb ?x ?y = false |- _ => apply Qltb_false_leb, Qleb_le in H
             end;
      try lra;
      repeat split; try done; try discriminate; try tauto;
      try (intros [? ?]; discriminate); try (intros [?|?]; discriminate).
  - repeat split; try done; try discriminate; try tauto;
      try (intros [? ?]; discriminate); try (intros [?|?]; discriminate).
  - repeat split; try done; try discriminate; try tauto;
      try (intros [? ?]; discriminate); try (intros [?|?]; discriminate); auto.
  - repeat split; try done; try discriminate; try tauto;
      try (intros [? ?]; discriminate); try (intros [?|?]; discriminate); auto.
Qed.

(** X6: when [thresholds.danger <= thresholds.warning] the gauge never
    shows the warning colour: every value at or above the warning threshold
    is already at or above the danger threshold and shows red. *)
Theorem progressColor_warning_unreachable value thresholds :
  le (GaugeChart.danger thresholds) (GaugeChart.warning thresholds) = true ->
  GaugeChart.progressColor value thresholds <> "#faad14"%string /\
  (ge value (GaugeChart.warning thresholds) = true ->
   GaugeChart.progressColor value thresholds = "#ff4d4f"%string).
Proof.
  intros Hle. unfold GaugeChart.progressColor.
  destruct (ge value (GaugeChart.danger thresholds)) eqn:Ed; [done|].
  destruct (ge value (GaugeChart.warning thresholds)) eqn:Ew; [|done].
  unfold ge in *. rewrite (number_le_trans _ _ _ Hle Ew) in Ed. discriminate.
Qed.

(** The witness of X6: thresholds swapped (warning 90, danger 70), value 95. *)
Lemma progressColor_warning_unreachable_witness :
  GaugeChart.progressColor (Finite 95) (GaugeChart.mkThresholds (Finite 90) (Finite 70))
    <> "#faad14"%string /\
  (ge (Finite 95) (Finite 90) = true ->
   GaugeChart.progressColor (Finite 95) (GaugeChart.mkThresholds (Finite 90) (Finite 70))
     = "#ff4d4f"%string).
Proof.
  apply (progressColor_warning_unreachable (Finite 95)
           (GaugeChart.mkThresholds (Finite 90) (Finite 70))).
  reflexivity.
Defined.

End CardFacts.

(** ** The responsive chart, the layout and the header *)

Module LayoutFacts.
Import JsNumber JsNumberFacts.

#[local] Abbreviation chart_consistent := ResponsiveChart.chart_consistent.

Lemma toggleExpanded_twice p st :
  chart_consistent p st ->
  ResponsiveChart.toggleExpanded p (ResponsiveChart.toggleExpanded p st) = st.
Proof.
  unfold ResponsiveChart.chart_consistent. destruct st as [w [|]]; simpl; by intros ->.
Qed.

Lemma toggleExpanded_consistent p st :
  chart_consistent p (ResponsiveChart.toggleExpanded p st).
Proof. unfold ResponsiveChart.chart_consistent. by destruct st as [w [|]]. Qed.

Lemma clicks_parity p n : forall st,
  chart_consistent p st ->
  ResponsiveChart.clicks p n st =
    if Nat.odd n then ResponsiveChart.toggleExpanded p st else st.
Proof.
  induction n as [n IH] using lt_wf_ind. intros st Hst.
  destruct n as [|[|n]]; [done | done |].
  cbn [ResponsiveChart.clicks]. rewrite toggleExpanded_twice by done.
  rewrite IH by (lia || done).
  by rewrite Nat.odd_succ, Nat.even_succ.
Qed.

(** X7: after [n] clicks on the expand button the chart is expanded exactly
    when [n] is odd, its width is 100 when expanded and [defaultWidth]
    otherwise, and two clicks restore the state; with the width props the
    dashboard passes ([defaultWidth] 100) the width is 100 after any number
    of clicks. *)
Theorem clicks_spec (p : ResponsiveChart.Props) (n : nat) :
  ResponsiveChart.clicks p n (ResponsiveChart.initial p)
    = {| ResponsiveChart.width :=
           if Nat.odd n then Finite 100 else ResponsiveChart.defaultWidth_ p;
         ResponsiveChart.isExpanded := Nat.odd n |} /\
  ResponsiveChart.clicks p (S (S n)) (ResponsiveChart.initial p)
    = ResponsiveChart.clicks p n (ResponsiveChart.initial p) /\
  ResponsiveChart.width
    (ResponsiveChart.clicks DashboardView.performanceChartProps n
       (ResponsiveChart.initial DashboardView.performanceChartProps)) = Finite 100 /\
  ResponsiveChart.width
    (ResponsiveChart.clicks DashboardView.systemLoadChartProps n
       (ResponsiveChart.initial DashboardView.systemLoadChartProps)) = Finite 100.
Proof.
  assert (forall q m,
            ResponsiveChart.clicks q m (ResponsiveChart.initial q)
            = {| ResponsiveChart.width :=
                   if Nat.odd m then Finite 100 else ResponsiveChart.defaultWidth_ q;
                 ResponsiveChart.isExpanded := Nat.odd m |}) as Hclicks.
  { intros q m. rewrite clicks_parity by done. by destruct (Nat.odd m). }
  split; [apply Hclicks|]. split.
  - rewrite !Hclicks. by rewrite Nat.odd_succ, Nat.even_succ.
  - rewrite !Hclicks. simpl. by destruct (Nat.odd n).
Qed.

(** X8: [minWidth] and [maxWidth] are never read: charts that differ in
    these props only are in the same state after the same clicks, and
    expanding sets the width to 100 whatever [maxWidth] is, also when
    [maxWidth] is below 100. *)
Theorem width_bounds_ignored (p p' : ResponsiveChart.Props) (n : nat) :
  ResponsiveChart.defaultWidth p = ResponsiveChart.defaultWidth p' ->
  ResponsiveChart.clicks p n (ResponsiveChart.initial p)
    = ResponsiveChart.clicks p' n (ResponsiveChart.initial p') /\
  ResponsiveChart.width
    (ResponsiveChart.toggleExpanded p (ResponsiveChart.initial p)) = Finite 100.
Proof.
  intros Hd. split; [|done].
  assert (ResponsiveChart.defaultWidth_ p = ResponsiveChart.defaultWidth_ p') as Hd'
    by (unfold ResponsiveChart.defaultWidth_; by rewrite Hd).
  rewrite !clicks_parity by done.
  unfold ResponsiveChart.toggleExpanded, ResponsiveChart.initial. simpl.
  by rewrite Hd'.
Qed.

(** The witness of X8: [maxWidth] 80 against the default; one click gives
    width 100, above the 80. *)
Lemma width_bounds_ignored_witness :
  ResponsiveChart.clicks
    (ResponsiveChart.mkProps (Some (Finite 60)) None (Some (Finite 80))) 1
    (ResponsiveChart.initial
       (ResponsiveChart.mkProps (Some (Finite 60)) None (Some (Finite 80))))
  = ResponsiveChart.clicks
      (ResponsiveChart.mkProps (Some (Finite 60)) None None) 1
      (ResponsiveChart.initial (ResponsiveChart.mkProps (Some (Finite 60)) None None)) /\
  ResponsiveChart.width
    (ResponsiveChart.toggleExpanded
       (ResponsiveChart.mkProps (Some (Finite 60)) None (Some (Finite 80)))
       (ResponsiveChart.initial
          (ResponsiveChart.mkProps (Some (Finite 60)) None (Some (Finite 80)))))
  = Finite 100.
Proof.
  apply (width_bounds_ignored
           (ResponsiveChart.mkProps (Some (Finite 60)) None (Some (Finite 80)))
           (ResponsiveChart.mkProps (Some (Finite 60)) None None) 1).
  reflexivity.
Defined.

Lemma handle_flips st e :
  AppStore.isSidebarCollapsed (MainLayout.handle st e)
  = negb (AppStore.isSidebarCollapsed st).
Proof. by destruct e. Qed.

Lemma handle_events_parity events : forall st,
  AppStore.isSidebarCollapsed (fold_left MainLayout.handle events st)
  = xorb (Nat.odd (length events)) (AppStore.isSidebarCollapsed st).
Proof.
  induction events as [|e events IH]; intros st; [done|].
  cbn [fold_left length]. rewrite IH, handle_flips, Nat.odd_succ.
  rewrite <- Nat.negb_odd.
  by destruct (Nat.odd (length events)), (AppStore.isSidebarCollapsed st).
Qed.

(** X9: every click on the sidebar toggle and every [resize] event of the
    window flips the sidebar: after any sequence of them, from the initial
    store, the sidebar is collapsed exactly when their number is odd; and in
    every such state the sider's width, the content's left margin, the
    header's left margin and the pixels taken off the header's width are
    the same, 80 when collapsed and 250 otherwise. *)
Theorem sidebar_layout (events : list MainLayout.LayoutEvent) :
  let st := fold_left MainLayout.handle events AppStore.useAppStore in
  AppStore.isSidebarCollapsed st = Nat.odd (length events) /\
  MainLayout.siderWidth st = (if Nat.odd (length events) then 80 else 250)%Z /\
  MainLayout.contentMarginLeft st = MainLayout.siderWidth st /\
  AppHeader.marginLeft st = MainLayout.siderWidth st /\
  AppHeader.widthOffset st = MainLayout.siderWidth st.
Proof.
  intros st.
  assert (AppStore.isSidebarCollapsed st = Nat.odd (length events)) as Hc.
  { subst st. rewrite handle_events_parity. simpl. by destruct (Nat.odd _). }
  split; [done|].
  unfold MainLayout.siderWidth, MainLayout.contentMarginLeft,
    AppHeader.marginLeft, AppHeader.widthOffset.
  by rewrite Hc.
Qed.

Lemma scrolls_snoc ys y st :
  AppHeader.scrolls (ys ++ [y]) st = AppHeader.handleScroll y (AppHeader.scrolls ys st).
Proof. unfold AppHeader.scrolls. by rewrite fold_left_app. Qed.

Lemma scrolls_lastScrollY ys st :
  AppHeader.lastScrollY (AppHeader.scrolls ys st)
  = default (AppHeader.lastScrollY st) (last ys).
Proof.
  induction ys as [|y ys IH] using rev_ind; [done|].
  by rewrite scrolls_snoc, last_snoc.
Qed.

(** X10: after any scroll events the header remembers the last position, and
    it is hidden exactly when the last event moved down (its position is
    above the one before it, or above 0 for the first event) to a position
    above 100; so it is shown at every position up to 100, after every
    upward move and after an event that did not move. *)
Theorem header_visibility (ys : list number) (y : number) :
  let before := AppHeader.scrolls ys AppHeader.initial in
  let st := AppHeader.scrolls (ys ++ [y]) AppHeader.initial in
  AppHeader.lastScrollY before = default (Finite 0) (last ys) /\
  AppHeader.lastScrollY st = y /\
  (AppHeader.isVisible st = false
     <-> lt (default (Finite 0) (last ys)) y = true /\ lt (Finite 100) y = true) /\
  (le y (Finite 100) = true -> AppHeader.isVisible st = true) /\
  (le y (default (Finite 0) (last ys)) = true -> AppHeader.isVisible st = true).
Proof.
  intros before st. subst before st.
  rewrite scrolls_snoc, scrolls_lastScrollY.
  unfold AppHeader.handleScroll. rewrite scrolls_lastScrollY.
  cbn [AppHeader.isVisible AppHeader.lastScrollY AppHeader.initial].
  set (prev := default (Finite 0) (last ys)).
  split; [done|]. split; [done|].
  assert (forall a b, le a b = true -> lt b a = false) as Hle.
  { intros a b. destruct a as [x| | |], b as [z| | |]; simpl; try done.
    rewrite Qleb_le. intros H. destruct (Qltb z x) eqn:E; [|done].
    apply Qltb_lt in E. lra. }
  split; [|split].
  - destruct (lt prev y), (lt (Finite 100) y); cbn [andb]; intuition congruence.
  - intros H. rewrite (Hle _ _ H). by rewrite andb_false_r.
  - intros H. by rewrite (Hle _ _ H).
Qed.

End LayoutFacts.

(** ** The machine store's action *)

Module StoreFacts.
Import MachineStore.

Lemma run_snoc actions a st : run (actions ++ [a]) st = dispatch (run actions st) a.
Proof. unfold run. by rewrite fold_left_app. Qed.

(** X11: whatever actions are dispatched, the store keeps its machines,
    alerts, performance history, system health and prediction accuracy, and
    its selection is the argument of the last [setSelectedMachineId] (the
    selection it started with when there was none); the argument is stored
    as it is, whether or not it is the id of a machine. *)
Theorem selection_last_write_wins (actions : list Action) (st : t) :
  machines (run actions st) = machines st /\
  alerts (run actions st) = alerts st /\
  performanceHistory (run actions st) = performanceHistory st /\
  systemHealth (run actions st) = systemHealth st /\
  predictionAccuracy (run actions st) = predictionAccuracy st /\
  selectedMachineId (run actions st) =
    match last actions with
    | Some (SetSelectedMachineId id) => id
    | None => selectedMachineId st
    end.
Proof.
  induction actions as [|a actions IH] using rev_ind; [done|].
  rewrite run_snoc, last_snoc.
  destruct IH as (Hm & Ha & Hp & Hh & Hacc & _).
  destruct a as [id]. simpl. by rewrite Hm, Ha, Hp, Hh, Hacc.
Qed.

#[local] Open Scope Z_scope.

(** X16: the generated history ends five minutes before [now]: every
    timestamp lies between [now] minus 24 hours and [now] minus 300000 ms,
    the last point is the one at [now] minus 300000 ms, and in every
    reachable state of the store no point of the history is at or after
    [now]. *)
Theorem history_ends_before_now now toISOString random sin (actions : list Action) :
  let data := performanceHistory (run actions (useMachineStore now toISOString random sin)) in
  (forall p, p ∈ data ->
     now - 86400000 <= PerformanceMetric.timestamp p <= now - 300000) /\
  (exists p, last data = Some p /\ PerformanceMetric.timestamp p = now - 300000).
Proof.
  intros data. subst data.
  rewrite MachineStoreFacts.run_performanceHistory,
    MachineStoreFacts.performanceHistory_initial.
  split.
  - intros p Hp. apply list_elem_of_lookup in Hp as [i Hi].
    apply MachineStoreFacts.generatePerformanceData_lookup in Hi as [Hi ->].
    rewrite MachineStoreFacts.timestamp_point. lia.
  - exists (dataPoint now random sin 287). split.
    + rewrite last_lookup, MachineStoreFacts.generatePerformanceData_length.
      apply MachineStoreFacts.generatePerformanceData_lookup. split; [lia|done].
    + rewrite MachineStoreFacts.timestamp_point. lia.
Qed.

End StoreFacts.

(** ** The ring buffer of the planning guide *)

Module RingBufferFacts.
Import LockFreeRingBuffer.

#[local] Open Scope nat_scope.

Section Facts.

Context {T : Type}.

Implicit Types (b : t T) (q : list T).

Lemma mod_add_lt c i j :
  i < c -> j < c ->
  (i + j) mod c = if Nat.ltb (i + j) c then i + j else i + j - c.
Proof.
  intros Hi Hj. destruct (Nat.ltb_spec (i + j) c).
  - by apply Nat.mod_small.
  - symmetry. apply (Nat.mod_unique (i + j) c 1); lia.
Qed.

Lemma represents_new c : 0 < c -> represents (new c : t T) [].
Proof.
  intros Hc. unfold represents, new. cbn [capacity buffer head tail length].
  rewrite length_replicate, Nat.add_0_r, Nat.mod_small by lia.
  repeat split; try lia. intros k item H. discriminate H.
Qed.

Lemma push_positive b item :
  0 < capacity b ->
  push b item =
    if is_full b then Aborted
    else if Nat.ltb (head b) (length (buffer b)) then
      Returned ({| buffer := <[head b := Some item]> (buffer b);
                   head := (head b + 1) mod capacity b;
                   tail := tail b;
                   capacity := capacity b |},
                PushOk)
    else Panicked.
Proof. intros Hc. unfold push, is_full. destruct (capacity b); [lia | reflexivity]. Qed.

Lemma pop_positive b :
  0 < capacity b ->
  pop b =
    if Nat.eqb (tail b) (head b) then Returned (b, None)
    else
      match buffer b !! tail b with
      | None => Panicked
      | Some None => Returned (b, None)
      | Some (Some item) =>
          Returned ({| buffer := <[tail b := None]> (buffer b);
                       head := head b;
                       tail := (tail b + 1) mod capacity b;
                       capacity := capacity b |},
                    Some item)
      end.
Proof. intros Hc. unfold pop. destruct (capacity b); [lia | reflexivity]. Qed.

(** A buffer is full when it holds [capacity - 1] items. *)
Lemma is_full_represents b q :
  represents b q -> is_full b = negb (Nat.ltb (length q) (capacity b - 1)).
Proof.
  intros (Hc & Hlen & Ht & Hq & Hh & Hslots). unfold is_full.
  assert ((head b + 1) mod capacity b = (tail b + (length q + 1)) mod capacity b) as Hnext.
  { rewrite Hh, Nat.Div0.add_mod_idemp_l. f_equal. lia. }
  destruct (Nat.ltb_spec (length q) (capacity b - 1)) as [Hroom|Hfull]; simpl.
  - pose proof (mod_add_lt (capacity b) (tail b) (length q + 1) Ht ltac:(lia)) as Hmod'.
    apply Nat.eqb_neq. rewrite Hnext, Hmod'.
    destruct (Nat.ltb_spec (tail b + (length q + 1)) (capacity b)); lia.
  - assert (length q + 1 = capacity b) as Hall by lia.
    apply Nat.eqb_eq. rewrite Hnext, Hall.
    rewrite <- (Nat.add_0_r (tail b)) at 2.
    rewrite <- (Nat.mod_small (tail b + 0) (capacity b)) by lia.
    rewrite <- (Nat.Div0.add_mod_idemp_r (tail b) (capacity b)).
    by rewrite Nat.Div0.mod_same.
Qed.

(** [push] on a buffer that is not full appends to the queue. *)
Lemma push_represents b q item :
  represents b q ->
  length q < capacity b - 1 ->
  exists b', push b item = Returned (b', PushOk) /\
             represents b' (q ++ [item]) /\
             capacity b' = capacity b.
Proof.
  intros Hrep Hroom. pose proof (is_full_represents b q Hrep) as Hfull.
  destruct Hrep as (Hc & Hlen & Ht & Hq & Hh & Hslots).
  rewrite push_positive by done. rewrite Hfull.
  destruct (Nat.ltb_spec (length q) (capacity b - 1)) as [_|?]; [|lia]. simpl.
  assert (head b < capacity b) as Hhead.
  { rewrite Hh. apply Nat.mod_upper_bound. lia. }
  pose proof (mod_add_lt (capacity b) (tail b) (length q) Ht Hq) as Hmod.
  assert ((head b + 1) mod capacity b = (tail b + (length q + 1)) mod capacity b) as Hnext.
  { rewrite Hh, Nat.Div0.add_mod_idemp_l. f_equal. lia. }
  destruct (Nat.ltb_spec (head b) (length (buffer b))); [|lia].
  eexists. split; [reflexivity|]. split; [|done].
  unfold represents. simpl. rewrite length_insert, length_app. simpl.
  repeat split; try lia; try (by rewrite Hnext).
  intros k x Hk.
  pose proof (lookup_lt_Some _ _ _ Hk) as Hklt.
  rewrite length_app in Hklt. simpl in Hklt.
  destruct (decide (k = length q)) as [->|Hkne].
  + rewrite <- Hh. rewrite list_lookup_insert_eq by lia.
    rewrite lookup_app_r, Nat.sub_diag in Hk by lia. simpl in Hk. congruence.
  + rewrite lookup_app_l in Hk by lia.
    rewrite list_lookup_insert_ne; [by apply Hslots|].
    rewrite Hh, Hmod.
    rewrite (mod_add_lt (capacity b) (tail b) k Ht ltac:(lia)).
    destruct (Nat.ltb_spec (tail b + length q) (capacity b));
      destruct (Nat.ltb_spec (tail b + k) (capacity b)); lia.
Qed.

(** [push] on a full buffer frees the item's box twice. *)
Lemma push_full b q item :
  represents b q -> capacity b - 1 <= length q -> push b item = Aborted.
Proof.
  intros Hrep Hfull. rewrite push_positive by apply Hrep.
  rewrite (is_full_represents b q Hrep).
  destruct (Nat.ltb_spec (length q) (capacity b - 1)); [lia | done].
Qed.

(** [pop] does what the queue does. *)
Lemma pop_represents b q :
  represents b q ->
  exists b', pop b = Returned (b', snd (queue_pop q)) /\
             represents b' (fst (queue_pop q)) /\
             capacity b' = capacity b.
Proof.
  intros (Hc & Hlen & Ht & Hq & Hh & Hslots).
  pose proof (mod_add_lt (capacity b) (tail b) (length q) Ht Hq) as Hmod.
  rewrite pop_positive by done. unfold queue_pop.
  destruct q as [|item q]; simpl in *.
  - rewrite Nat.add_0_r, Nat.mod_small in Hh by lia.
    rewrite Hh, Nat.eqb_refl. exists b. repeat split; try done; try lia.
    rewrite Nat.add_0_r, Nat.mod_small by lia. done.
  - destruct (Nat.eqb_spec (tail b) (head b)) as [Heq|Hne].
    { exfalso. rewrite Hh, Hmod in Heq.
      destruct (Nat.ltb_spec (tail b + S (length q)) (capacity b)); lia. }
    pose proof (Hslots 0 item eq_refl) as Hfirst.
    rewrite Nat.add_0_r, Nat.mod_small in Hfirst by lia. rewrite Hfirst.
    eexists. split; [reflexivity|]. split; [|done].
    unfold represents. simpl. rewrite length_insert.
    repeat split; try lia;
      try (apply Nat.mod_upper_bound; lia);
      try (rewrite Hh, Nat.Div0.add_mod_idemp_l; f_equal; lia).
    intros k x Hk.
    pose proof (lookup_lt_Some _ _ _ Hk) as Hklt.
    rewrite Nat.Div0.add_mod_idemp_l.
    replace (tail b + 1 + k) with (tail b + S k) by lia.
    rewrite list_lookup_insert_ne; [by apply Hslots|].
    rewrite (mod_add_lt (capacity b) (tail b) (S k) Ht ltac:(lia)).
    destruct (Nat.ltb_spec (tail b + S k) (capacity b)); lia.
Qed.

(** Every run on a buffer replies as the queue it represents. *)
Lemma run_represents ops : forall b q,
  represents b q -> run ops b = queue_run (capacity b - 1) ops q.
Proof.
  induction ops as [|op ops IH]; intros b q Hrep; [done|].
  destruct op as [item|]; cbn [run queue_run].
  - destruct (Nat.ltb_spec (length q) (capacity b - 1)) as [Hroom|Hfull].
    + destruct (push_represents b q item Hrep Hroom) as (b' & -> & Hrep' & Hcap).
      f_equal. rewrite <- Hcap. by apply IH.
    + by rewrite (push_full b q item Hrep Hfull).
  - destruct (pop_represents b q Hrep) as (b' & -> & Hrep' & Hcap).
    destruct (queue_pop q) as [q' item'] eqn:E.
    simpl in *. f_equal. rewrite <- Hcap. by apply IH.
Qed.

(** X12: used from one thread, a buffer created with a positive capacity is
    a first-in first-out queue bounded by [capacity - 1] up to the first
    [push] on a full buffer: until then every [push] is accepted, every
    [pop] returns the oldest item that is held, or [None] when there is
    none, and no call panics.  The [push] on a buffer that holds
    [capacity - 1] items does not return the item in an [Err]: it frees the
    item's box twice, which ends the run.  No [push] is ever refused with
    its item. *)
Theorem ring_buffer_is_bounded_queue (c : nat) (ops : list (Op T)) :
  0 < c ->
  run ops (new c) = queue_run (c - 1) ops [] /\
  (Panic ∉ run ops (new c)) /\
  (forall item, Refused item ∉ run ops (new c)).
Proof.
  intros Hc.
  rewrite (run_represents ops (new c) [] (represents_new c Hc)). simpl.
  split; [done|].
  generalize (@nil T). induction ops as [|op ops IH]; intros q.
  - split; [|intros item]; apply not_elem_of_nil.
  - destruct op as [item|]; cbn [queue_run].
    + destruct (Nat.ltb (length q) (c - 1)).
      * destruct (IH (q ++ [item])) as [H1 H2].
        split; [|intros item']; apply not_elem_of_cons; split; (done || auto).
      * split; [|intros item']; apply not_elem_of_cons;
          (split; [done | apply not_elem_of_nil]).
    + destruct (queue_pop q) as [q' item']. destruct (IH q') as [H1 H2].
      split; [|intros item'']; apply not_elem_of_cons; split; (done || auto).
Qed.

Lemma queue_run_pushes bound items : forall q,
  queue_run bound (map Push items) q
  = replicate (Nat.min (bound - length q) (length items)) Pushed
    ++ (if Nat.ltb (bound - length q) (length items) then [Abort] else []).
Proof.
  induction items as [|item items IH]; intros q.
  - simpl. by rewrite Nat.min_0_r.
  - cbn [map queue_run length].
    destruct (Nat.ltb_spec (length q) bound) as [Hlt|Hge].
    + rewrite IH, length_app. simpl.
      replace (bound - length q) with (S (bound - (length q + 1))) by lia.
      simpl.
      destruct (Nat.ltb_spec (bound - (length q + 1)) (length items));
        destruct (Nat.ltb_spec (S (bound - (length q + 1))) (S (length items)));
        (done || lia).
    + replace (bound - length q) with 0 by lia. simpl. done.
Qed.

(** X13: a buffer created with capacity [c] holds at most [c - 1] items: of
    a burst of pushes on the new buffer the first [c - 1] are accepted, and
    the next one, on the full buffer, ends the run; with capacity 1 no push
    is ever accepted. *)
Theorem ring_buffer_holds_one_less (c : nat) (items : list T) :
  0 < c ->
  run (map Push items) (new c)
  = replicate (Nat.min (c - 1) (length items)) Pushed
    ++ (if Nat.ltb (c - 1) (length items) then [Abort] else []).
Proof.
  intros Hc.
  rewrite (run_represents _ (new c) [] (represents_new c Hc)). simpl.
  rewrite queue_run_pushes. simpl. by rewrite Nat.sub_0_r.
Qed.

(** X14: a buffer created with capacity 0 never accepts an item: [pop]
    returns [None] and changes nothing, and the first [push] panics (a
    remainder by zero) and ends the run. *)
Theorem ring_buffer_capacity_zero (n : nat) (item : T) (ops : list (Op T)) :
  run (replicate n (@Pop T)) (new 0) = replicate n (Popped None) /\
  run (replicate n Pop ++ Push item :: ops) (new 0)
    = replicate n (Popped None) ++ [Panic].
Proof.
  split.
  - induction n as [|n IH]; [done|]. simpl. by rewrite IH.
  - induction n as [|n IH]; [done|]. simpl. by rewrite IH.
Qed.

Lemma collect_loop_represents fuel : forall batch_size b q batch,
  represents b q ->
  batch_size - length batch <= fuel ->
  exists b',
    collect_loop fuel batch_size b batch
      = Returned (b', batch ++ take (batch_size - length batch) q) /\
    represents b' (drop (batch_size - length batch) q) /\
    capacity b' = capacity b.
Proof.
  induction fuel as [|fuel IH]; intros batch_size b q batch Hrep Hfuel;
    cbn [collect_loop].
  - replace (batch_size - length batch) with 0 by lia.
    exists b. simpl. by rewrite app_nil_r.
  - destruct (Nat.ltb_spec (length batch) batch_size) as [Hlt|Hge].
    + destruct (pop_represents b q Hrep) as (b' & -> & Hrep' & Hcap).
      destruct q as [|item q]; simpl in *.
      * exists b'. rewrite take_nil, drop_nil, app_nil_r. done.
      * destruct (IH batch_size b' q (batch ++ [item]) Hrep') as (b2 & -> & Hrep2 & Hcap2).
        { rewrite length_app. simpl. lia. }
        exists b2. rewrite length_app in *. simpl in *.
        replace (batch_size - length batch) with (S (batch_size - (length batch + 1)))
          by lia.
        simpl. rewrite <- app_assoc. simpl.
        split; [done|]. split; [done|]. congruence.
    + replace (batch_size - length batch) with 0 by lia.
      exists b. simpl. by rewrite app_nil_r.
Qed.

End Facts.

(** X15: the collecting loop of [start_processing], on a buffer that holds
    the items [q] (oldest first), appends to the batch the oldest
    [batch_size - batch.len()] items of [q] in order, or all of [q] when it
    holds fewer, leaves the others in the buffer in order, and does not
    panic. *)
Theorem collect_batch_oldest_first {T : Type} (batch_size : nat)
    (b : t T) (q batch : list T) :
  represents b q ->
  exists b',
    collect_batch batch_size b batch
      = Returned (b', batch ++ take (batch_size - length batch) q) /\
    represents b' (drop (batch_size - length batch) q).
Proof.
  intros Hrep. unfold collect_batch.
  destruct (collect_loop_represents (batch_size - length batch)
              batch_size b q batch Hrep) as (b' & H1 & H2 & _); [lia|].
  eauto.
Qed.

(** The witness of X12: capacity 3, two pushes, a pop, a push, three pops
    and three pushes, the last of them on the full buffer. *)
Lemma ring_buffer_is_bounded_queue_witness :
  run [Push 1; Push 2; Pop; Push 3; Pop; Pop; Pop; Push 4; Push 5; Push 6; Pop]
      (new 3)
    = queue_run (3 - 1)
        [Push 1; Push 2; Pop; Push 3; Pop; Pop; Pop; Push 4; Push 5; Push 6; Pop] [] /\
  (Panic ∉ run [Push 1; Push 2; Pop; Push 3; Pop; Pop; Pop; Push 4; Push 5; Push 6; Pop]
             (new 3)) /\
  (forall item,
     Refused item
       ∉ run [Push 1; Push 2; Pop; Push 3; Pop; Pop; Pop; Push 4; Push 5; Push 6; Pop]
           (new 3)).
Proof.
  apply (ring_buffer_is_bounded_queue 3
           [Push 1; Push 2; Pop; Push 3; Pop; Pop; Pop; Push 4; Push 5; Push 6; Pop]).
  lia.
Defined.

Example ring_buffer_run :
  run [Push 1; Push 2; Pop; Push 3; Pop; Pop; Pop; Push 4; Push 5; Push 6; Pop]
      (new 3)
  = [Pushed; Pushed; Popped (Some 1); Pushed; Popped (Some 2); Popped (Some 3);
     Popped None; Pushed; Pushed; Abort].
Proof. reflexivity. Qed.

(** The witness of X13: capacity 3 and the items 1, 2, 3, 4: two are
    accepted, and the push of 3 ends the run. *)
Lemma ring_buffer_holds_one_less_witness :
  run (map Push [1; 2; 3; 4]) (new 3)
  = replicate (Nat.min (3 - 1) (length [1; 2; 3; 4])) Pushed
    ++ (if Nat.ltb (3 - 1) (length [1; 2; 3; 4]) then [Abort] else []).
Proof. apply (ring_buffer_holds_one_less 3 [1; 2; 3; 4]). lia. Defined.

Example ring_buffer_capacity_three :
  run (map Push [1; 2; 3; 4]) (new 3) = [Pushed; Pushed; Abort].
Proof. reflexivity. Qed.

Lemma represents_sample :
  represents (mk [Some 1; Some 2; None; Some 0] 2 3 4) [0; 1; 2].
Proof.
  unfold represents. simpl. repeat split; try lia.
  intros [|[|[|k]]] item H; simpl in H; try discriminate H;
    injection H as <-; reflexivity.
Defined.

(** The witness of X15: a buffer of capacity 4 that holds 0, 1, 2 with the
    oldest in the last slot, and a batch size of 2. *)
Lemma collect_batch_oldest_first_witness :
  exists b',
    collect_batch 2 (mk [Some 1; Some 2; None; Some 0] 2 3 4) []
      = Returned (b', [] ++ take (2 - length (@nil nat)) [0; 1; 2]) /\
    represents b' (drop (2 - length (@nil nat)) [0; 1; 2]).
Proof.
  apply (collect_batch_oldest_first 2 (mk [Some 1; Some 2; None; Some 0] 2 3 4)
           [0; 1; 2] [] represents_sample).
Defined.

End RingBufferFacts.

(** ** The circular buffer of the planning guide *)

Module CircularBufferFacts.
Import CircularBuffer.

#[local] Open Scope nat_scope.

Section Facts.

Context {T : Type}.

Implicit Types (b : t T) (items : list T).

Lemma keeps_make c : 0 < c -> keeps c [] (make c : t T).
Proof.
  intros Hc. unfold keeps, make. cbn [capacity buffer head size length].
  rewrite length_replicate, Nat.Div0.mod_0_l.
  repeat split; try lia. intros j item H. discriminate H.
Qed.

(** Two positions less than [c] apart fall into different slots. *)
Lemma mod_apart c j n : j < n -> n < j + c -> j mod c <> n mod c.
Proof.
  intros Hjn Hnc Heq.
  pose proof (Nat.div_mod_eq j c) as Hj. pose proof (Nat.div_mod_eq n c) as Hn.
  rewrite Heq in Hj.
  generalize dependent (n mod c). generalize dependent (j / c).
  generalize dependent (n / c). intros qn qj r _ Hj Hn.
  assert (qj < qn) by nia. nia.
Qed.

Lemma keeps_add c items b item :
  0 < c -> keeps c items b -> keeps c (items ++ [item]) (add b item).
Proof.
  intros Hc (Hcap & Hlen & Hhead & Hsize & Hslots).
  assert (length items mod c < c) as Hlt by (apply Nat.mod_upper_bound; lia).
  unfold keeps, add. rewrite Hhead, Hcap, Hsize.
  cbn [capacity buffer head size]. unfold array_set.
  destruct (Nat.ltb_spec (length items mod c) (length (buffer b))); [|lia].
  rewrite length_insert, length_app. cbn [length].
  destruct c as [|c']; [lia|]. split; [done|]. split; [done|]. split.
  { f_equal. rewrite Nat.Div0.add_mod_idemp_l. done. }
  split.
  { destruct (Nat.ltb_spec (Nat.min (length items) (S c')) (S c')); lia. }
  intros j x Hj Hrecent.
  pose proof (lookup_lt_Some _ _ _ Hj) as Hjlt.
  rewrite length_app in Hjlt. cbn [length] in Hjlt.
  destruct (decide (j = length items)) as [->|Hne].
  - rewrite list_lookup_insert_eq by lia.
    rewrite lookup_app_r, Nat.sub_diag in Hj by lia. simpl in Hj. congruence.
  - rewrite lookup_app_l in Hj by lia.
    rewrite list_lookup_insert_ne; [apply Hslots; [done|lia]|].
    intros Heq. apply (mod_apart (S c') j (length items)); [lia | lia | done].
Qed.

Lemma keeps_add_all c items : 0 < c -> keeps c items (add_all items (make c)).
Proof.
  intros Hc. induction items as [|item items IH] using rev_ind.
  - by apply keeps_make.
  - unfold add_all in *. rewrite fold_left_app. simpl. by apply keeps_add.
Qed.

(** What [getAll] reads in position [i]. *)
Lemma slot_keeps c items b i item :
  keeps c items b -> 0 < c ->
  items !! (length items - Nat.min (length items) c + i) = Some item ->
  slot b i = Some item.
Proof.
  intros (Hcap & Hlen & Hhead & Hsize & Hslots) Hc Hi.
  pose proof (lookup_lt_Some _ _ _ Hi) as Hilt.
  set (j := length items - Nat.min (length items) c + i) in *.
  unfold slot. rewrite Hhead, Hcap, Hsize.
  destruct c as [|c']; [lia|].
  set (index := Z.rem _ _).
  assert (index = Z.of_nat (j mod S c')) as ->.
  { subst index. rewrite Z.rem_mod_nonneg.
    2:{ pose proof (Nat.mod_upper_bound (length items) (S c') ltac:(lia)). lia. }
    2:{ lia. }
    rewrite (Nat2Z.inj_mod j (S c')).
    pose proof (Nat.div_mod_eq (length items) (S c')) as Hdiv.
    replace (Z.of_nat (length items mod S c') - Z.of_nat (Nat.min (length items) (S c'))
             + Z.of_nat i + Z.of_nat (S c'))%Z
      with (Z.of_nat j + (1 - Z.of_nat (length items / S c')) * Z.of_nat (S c'))%Z
      by (subst j; nia).
    apply Z_mod_plus_full. }
  destruct (Z.ltb_spec (Z.of_nat (j mod S c')) 0); [lia|].
  rewrite Nat2Z.id. rewrite (Hslots j item Hi) by (subst j; lia). done.
Qed.

Lemma getAll_keeps c items b :
  keeps c items b -> 0 < c ->
  getAll b = map Some (drop (length items - c) items).
Proof.
  intros Hk Hc. pose proof Hk as (Hcap & Hlen & Hhead & Hsize & Hslots).
  unfold getAll. rewrite Hsize.
  destruct (Nat.eqb_spec (Nat.min (length items) c) 0) as [Hz|Hnz].
  { assert (length items = 0) as Hnil by lia.
    apply nil_length_inv in Hnil. by subst. }
  apply list_eq. intros i.
  rewrite !list_lookup_fmap, lookup_drop.
  destruct (decide (i < Nat.min (length items) c)) as [Hi|Hi].
  - rewrite lookup_seq_lt by done. simpl.
    destruct (lookup_lt_is_Some_2 items (length items - c + i) ltac:(lia)) as [item Hitem].
    rewrite Hitem. simpl. f_equal.
    apply (slot_keeps c items b i item Hk Hc).
    replace (length items - Nat.min (length items) c + i)
      with (length items - c + i) by lia.
    done.
  - rewrite lookup_seq_ge by lia.
    rewrite lookup_ge_None_2 by lia. done.
Qed.

Lemma getLast_keeps c count items b :
  keeps c items b -> 0 < c -> 0 < count ->
  getLast count b = map Some (drop (length items - Nat.min count c) items).
Proof.
  intros Hk Hc Hcount. unfold getLast. rewrite (getAll_keeps c items b Hk Hc).
  unfold slice_from_end. destruct count as [|count']; [lia|].
  rewrite length_map, length_drop, <- fmap_drop, drop_drop.
  f_equal. f_equal. lia.
Qed.

End Facts.

(** X17: after any items are added to a new buffer of positive capacity,
    [getAll] returns the last [capacity] of them (all of them while fewer
    were added), oldest first, none missing; the size is the smaller of
    the number added and the capacity. *)
Theorem getAll_last_capacity {T : Type} (c : nat) (items : list T) :
  0 < c ->
  getAll (add_all items (make c)) = map Some (drop (length items - c) items) /\
  size (add_all items (make c)) = Nat.min (length items) c.
Proof.
  intros Hc. pose proof (keeps_add_all c items Hc) as Hk. split.
  - by apply (getAll_keeps c items).
  - by destruct Hk as (_ & _ & _ & Hsize & _).
Qed.

(** The witness of X17: capacity 3 and the items 1 to 5. *)
Lemma getAll_last_capacity_witness :
  getAll (add_all [1; 2; 3; 4; 5] (make 3))
    = map Some (drop (length [1; 2; 3; 4; 5] - 3) [1; 2; 3; 4; 5]) /\
  size (add_all [1; 2; 3; 4; 5] (make 3)) = Nat.min (length [1; 2; 3; 4; 5]) 3.
Proof. apply (getAll_last_capacity 3 [1; 2; 3; 4; 5]). lia. Defined.

Example getAll_capacity_three :
  getAll (add_all [1; 2; 3; 4; 5] (make 3)) = [Some 3; Some 4; Some 5].
Proof. reflexivity. Qed.

(** X18: on such a buffer [getLast(count)] with a positive [count] returns
    the last [count] items added, or all the buffer keeps when [count]
    exceeds that, oldest first; [getLast(0)] returns everything the buffer
    keeps, not the empty array. *)
Theorem getLast_spec {T : Type} (c count : nat) (items : list T) :
  0 < c ->
  (0 < count ->
   getLast count (add_all items (make c))
     = map Some (drop (length items - Nat.min count c) items)) /\
  getLast 0 (add_all items (make c)) = getAll (add_all items (make c)).
Proof.
  intros Hc. split; [|done]. intros Hcount.
  by apply (getLast_keeps c count items _ (keeps_add_all c items Hc)).
Qed.

(** The witness of X18: capacity 3, the items 1 to 5 and a count of 2. *)
Lemma getLast_spec_witness :
  getLast 2 (add_all [1; 2; 3; 4; 5] (make 3))
    = map Some (drop (length [1; 2; 3; 4; 5] - Nat.min 2 3) [1; 2; 3; 4; 5]).
Proof.
  apply (proj1 (getLast_spec 3 2 [1; 2; 3; 4; 5] ltac:(lia))). lia.
Defined.

Example getLast_zero :
  getLast 0 (add_all [1; 2; 3; 4; 5] (make 3)) = [Some 3; Some 4; Some 5].
Proof. reflexivity. Qed.

(** X19: a buffer of capacity 0 keeps nothing: whatever is added, its size
    stays 0 and [getAll] returns the empty array. *)
Theorem capacity_zero_keeps_nothing {T : Type} (items : list T) :
  size (add_all items (make 0)) = 0 /\
  getAll (add_all items (make 0)) = [].
Proof.
  assert (forall b : t T, capacity b = 0 -> size b = 0 ->
            capacity (add_all items b) = 0 /\ size (add_all items b) = 0) as H.
  { induction items as [|item items IH]; intros b Hcap Hsize; [done|].
    unfold add_all in *. simpl. apply IH.
    - done.
    - simpl. rewrite Hcap, Hsize. done. }
  destruct (H (make 0) eq_refl eq_refl) as [_ Hsize].
  split; [done|]. unfold getAll. by rewrite Hsize.
Qed.

End CircularBufferFacts.

(** ** The ingestion buffer of the pipeline *)

Module IngestionFacts.
Import LockFreeRingBuffer DataProcessingPipeline.

#[local] Open Scope nat_scope.

Implicit Types (p : DataProcessingPipeline.t) (q batch : list SensorReading).








(** Two sensors, capacity 8: the readings of each sensor come out in the
    order they went in, in the batches the turns of the task make. *)
Example fifo_two_sensors :
  run [Ingest (Samples.reading "a" 1); Ingest (Samples.reading "b" 2);
       Ingest (Samples.reading "a" 3); Turn true;
       Ingest (Samples.reading "b" 4); Ingest (Samples.reading "a" 5);
       Turn false; Turn true]
      (new 8) []
  = [[Samples.reading "a" 1; Samples.reading "b" 2; Samples.reading "a" 3];
     [Samples.reading "b" 4; Samples.reading "a" 5]].
Proof. vm_compute. reflexivity. Qed.



(** A ring buffer of capacity 3 never holds three items. *)
Lemma ring_buffer_never_holds_capacity {T : Type} (b : LockFreeRingBuffer.t T)
    (q : list T) :
  represents b q -> length q < capacity b.
Proof. by intros (_ & _ & _ & H & _). Qed.

End IngestionFacts.

(** ** The feature extractor *)

Module FeatureFacts.
Import FeatureExtractor Automation.

#[local] Open Scope nat_scope.

(** A finite double is a zero or a signed mantissa with an exponent. *)
Lemma finite_shape (x : float) :
  PrimFloat.is_finite x = true ->
  (exists s, Prim2SF x = S754_zero s) \/ (exists s m e, Prim2SF x = S754_finite s m e).
Proof.
  unfold PrimFloat.is_finite, PrimFloat.is_nan, PrimFloat.is_infinity.
  rewrite !FloatAxioms.eqb_spec, FloatAxioms.abs_spec.
  change (Prim2SF infinity) with (S754_infinity false).
  destruct (Prim2SF x) as [s|[]| |s m e]; simpl; try discriminate; eauto.
Qed.

(** The difference of a finite double and itself is the positive zero. *)
Lemma sub_diag (x : float) :
  PrimFloat.is_finite x = true -> PrimFloat.sub x x = 0%float.
Proof.
  intros H. apply Prim2SF_inj. rewrite FloatAxioms.sub_spec.
  change (Prim2SF 0) with (S754_zero false).
  destruct (finite_shape x H) as [[s ->]|(s & m & e & ->)].
  - by destruct s.
  - unfold SF64sub, SFsub.
    set (z := cond_Zopp s _).
    assert (forall a, IntDef.Z.sub a a = 0%Z) as Hd.
    { intros a. change (a - a = 0)%Z. apply Z.sub_diag. }
    by rewrite Hd.
Qed.









(** The extractor of the examples is the default one. *)
Example init_default :
  init default_window_size default_overlap = Return Samples.extractor.
Proof. vm_compute. reflexivity. Qed.

(** A window size that is not positive and an overlap that is not in
    [0, 1), such as NaN, are refused. *)
Example init_refuses :
  init 0 0.5 = Raise (ValueError "Window size must be positive") /\
  init 100 1 = Raise (ValueError "Overlap must be between 0 and 1") /\
  init 100 nan = Raise (ValueError "Overlap must be between 0 and 1").
Proof. vm_compute. repeat split. Qed.

(** One reading is enough, below the window size of 100. *)
Example extract_single_reading :
  returns (extract_statistical_features numpy_in_order Samples.extractor [1%float])
  = true.
Proof. vm_compute. reflexivity. Qed.




(** Four readings of 5.0 add up without rounding: the features are those
    of the constant window, and the sentinel stands where the division by
    the standard deviation would give NaN. *)
Example constant_window_exact :
  let window := replicate 4 5%float in
  extract_statistical_features numpy_in_order Samples.extractor window
    = Return (features_of numpy_in_order window, false) /\
  mean (features_of numpy_in_order window) = 5%float /\
  std (features_of numpy_in_order window) = 0%float /\
  variance (features_of numpy_in_order window) = 0%float /\
  skewness (features_of numpy_in_order window) = 0%float /\
  np_mean numpy_in_order (standardized numpy_in_order 3 5 0 window) = nan.
Proof. vm_compute. repeat split. Qed.


Example constant_window_rounded :
  let f := features_of numpy_in_order (replicate 3 0.1%float) in
  mean f = 0.10000000000000002%float /\
  std f = 1.3877787807814457e-17%float /\
  variance f = 1.9259299443872359e-34%float /\
  skewness f = (-1)%float /\
  min f = 0.1%float /\ max f = 0.1%float.
Proof. vm_compute. repeat split. Qed.

End FeatureFacts.

(** ** The sensor data of the guide's store *)

Module SensorStoreFacts.
Import CircularBuffer SensorStore.

#[local] Open Scope nat_scope.

Section Facts.

Context {Equipment SensorReading : Type}.
Variable equipment_id : Equipment -> string.

Implicit Types (data : gmap string (CircularBuffer.t SensorReading)).

Lemma tracks_ext (f g : string -> list SensorReading) data : (forall s, f s = g s) -> tracks f data -> tracks g data.
Proof. intros Hfg Ht s. specialize (Ht s). by rewrite <- Hfg. Qed.

Lemma tracks_store (f : string -> list SensorReading) data sensorId reading :
  tracks f data ->
  tracks (fun s => f s ++ if decide (sensorId = s) then [reading] else [])
         (store_reading sensorId reading data).
Proof.
  intros Ht s. unfold store_reading.
  pose proof (Ht sensorId) as Hs.
  destruct (data !! sensorId) as [b|] eqn:Eb.
  - rewrite Eb. destruct (decide (sensorId = s)) as [<-|Hne].
    + rewrite lookup_insert_eq. destruct Hs as [_ Hk]. split.
      * by destruct (f sensorId).
      * apply CircularBufferFacts.keeps_add; [lia | done].
    + rewrite lookup_insert_ne by done. rewrite app_nil_r. apply Ht.
  - rewrite lookup_insert_eq. destruct (decide (sensorId = s)) as [<-|Hne].
    + rewrite lookup_insert_eq, Hs. split; [done|].
      apply (CircularBufferFacts.keeps_add 1000 [] (make 1000) reading); [lia|].
      apply CircularBufferFacts.keeps_make. lia.
    + rewrite !lookup_insert_ne by done. rewrite app_nil_r. apply Ht.
Qed.

Lemma tracks_batch (updates : list (string * SensorReading)) :
  forall (f : string -> list SensorReading) data,
  tracks f data ->
  tracks (fun s => f s ++ flat_map (fun u => if decide (fst u = s) then [snd u] else [])
                            updates)
         (fold_left (fun data u => store_reading (fst u) (snd u) data) updates data).
Proof.
  induction updates as [|u updates IH]; intros f data Ht.
  - simpl. eapply tracks_ext; [|exact Ht]. intros s. by rewrite app_nil_r.
  - simpl. eapply tracks_ext; [|apply IH, tracks_store, Ht].
    intros s. simpl. by rewrite <- app_assoc.
Qed.

(** With the plugin every action is its recipe. *)
Lemma step_enabled (st : t Equipment SensorReading)
    (a : Action Equipment SensorReading) :
  step equipment_id true st a = recipe equipment_id st a.
Proof. reflexivity. Qed.

(** Without the plugin no action changes the state. *)
Lemma step_disabled (st : t Equipment SensorReading)
    (a : Action Equipment SensorReading) :
  step equipment_id false st a = st.
Proof.
  unfold step, dispatch. destruct a as [e|sensorId reading|equipmentId|[|u updates]];
    try reflexivity.
  by destruct st.
Qed.

Lemma run_disabled (actions : list (Action Equipment SensorReading))
    (st : t Equipment SensorReading) :
  run equipment_id false actions st = st.
Proof.
  unfold run. induction actions as [|a actions IH]; [done|].
  simpl. by rewrite step_disabled.
Qed.

Lemma sensor_run_snoc (mapSet : bool) (actions : list (Action Equipment SensorReading))
    a st :
  run equipment_id mapSet (actions ++ [a]) st
  = step equipment_id mapSet (run equipment_id mapSet actions st) a.
Proof. unfold run. by rewrite fold_left_app. Qed.

Lemma tracks_dispatch (actions : list (Action Equipment SensorReading))
    (a : Action Equipment SensorReading) :
  tracks (fun s => readings_for s actions)
         (sensorData (run equipment_id true actions initial)) ->
  tracks (fun s => readings_for s (actions ++ [a]))
         (sensorData (run equipment_id true (actions ++ [a]) initial)).
Proof.
  intros Ht. rewrite sensor_run_snoc, step_enabled.
  destruct a as [e|sensorId reading|equipmentId|updates]; cbn [recipe].
  - eapply tracks_ext; [|exact Ht].
    intros s. unfold readings_for. rewrite flat_map_app. simpl. by rewrite !app_nil_r.
  - apply (tracks_ext
             (fun s => readings_for s actions
                       ++ if decide (sensorId = s) then [reading] else []));
      [|apply tracks_store, Ht].
    intros s. unfold readings_for. rewrite flat_map_app. simpl. by rewrite app_nil_r.
  - eapply tracks_ext; [|exact Ht].
    intros s. unfold readings_for. rewrite flat_map_app. simpl. by rewrite !app_nil_r.
  - apply (tracks_ext
             (fun s => readings_for s actions
                       ++ flat_map (fun u => if decide (fst u = s) then [snd u] else [])
                            updates));
      [|apply tracks_batch, Ht].
    intros s. unfold readings_for. rewrite flat_map_app. simpl. by rewrite app_nil_r.
Qed.

Lemma tracks_run (actions : list (Action Equipment SensorReading)) :
  tracks (fun s => readings_for s actions)
         (sensorData (run equipment_id true actions initial)).
Proof.
  induction actions as [|a actions IH] using rev_ind.
  - intros s. cbn. by rewrite lookup_empty.
  - by apply tracks_dispatch.
Qed.

End Facts.

(** X20: the sensor data of the guide's store after any actions.  With
    immer's MapSet plugin loaded, a sensor has a buffer exactly when
    [updateSensorData] or [batchUpdateSensorData] brought a reading for it,
    and that buffer's [getAll] returns the last 1000 readings brought for
    the sensor (all of them while there are fewer), in the order they
    arrived, whatever was stored for other sensors.  Without the plugin, as
    the guide has it, every action that reaches a [Map] or a [Set] throws
    and the store stays in its initial state: it keeps no reading. *)
Theorem sensor_history_last_1000 {Equipment SensorReading : Type}
    (equipment_id : Equipment -> string) (mapSet : bool)
    (actions : list (Action Equipment SensorReading)) (sensorId : string) :
  let st := run equipment_id mapSet actions initial in
  let rs := readings_for sensorId actions in
  if mapSet then
    match sensorData st !! sensorId with
    | None => rs = []
    | Some b =>
        rs <> [] /\
        getAll b = map Some (drop (length rs - 1000) rs) /\
        size b = Nat.min (length rs) 1000
    end
  else st = initial.
Proof.
  intros st rs. subst st rs. destruct mapSet; [|apply run_disabled].
  pose proof (tracks_run equipment_id actions sensorId) as Ht.
  destruct (sensorData (run equipment_id true actions initial) !! sensorId) as [b|];
    [|done].
  destruct Ht as [Hne Hk]. split; [done|]. split.
  - apply (CircularBufferFacts.getAll_keeps 1000 _ b Hk). lia.
  - by destruct Hk as (_ & _ & _ & Hsize & _).
Qed.

(** X21: the selector [useSensorData(sensorId, count)] after any actions.
    With immer's MapSet plugin loaded it returns the last [count] readings
    brought for the sensor, at most the last 1000, oldest first, and the
    empty array for a sensor without readings; without [count] it returns
    the last 100; with a [count] of 0 it returns all that the buffer keeps,
    up to 1000 readings.  Without the plugin, as the guide has it, it
    returns the empty array whatever was sent to the store. *)
Theorem useSensorData_spec {Equipment SensorReading : Type}
    (equipment_id : Equipment -> string) (mapSet : bool)
    (actions : list (Action Equipment SensorReading)) (sensorId : string)
    (count : nat) :
  let st := run equipment_id mapSet actions initial in
  let rs := readings_for sensorId actions in
  if mapSet then
    (0 < count ->
     useSensorData sensorId (Some count) st
       = map Some (drop (length rs - Nat.min count 1000) rs)) /\
    useSensorData sensorId None st = map Some (drop (length rs - 100) rs) /\
    useSensorData sensorId (Some 0) st = map Some (drop (length rs - 1000) rs)
  else
    useSensorData sensorId (Some count) st = [] /\
    useSensorData sensorId None st = [].
Proof.
  intros st rs. subst st rs. destruct mapSet.
  - pose proof (tracks_run equipment_id actions sensorId) as Ht.
    unfold useSensorData.
    destruct (sensorData (run equipment_id true actions initial) !! sensorId) as [b|].
    + destruct Ht as [Hne Hk]. split; [|split].
      * intros Hcount.
        by apply (CircularBufferFacts.getLast_keeps 1000 count _ b Hk); lia.
      * cbn [default].
        rewrite (CircularBufferFacts.getLast_keeps 1000 100 _ b Hk) by lia.
        done.
      * cbn [default]. unfold getLast, slice_from_end.
        apply (CircularBufferFacts.getAll_keeps 1000 _ b Hk). lia.
    + rewrite Ht. by rewrite !drop_nil.
  - rewrite run_disabled. unfold useSensorData. cbn [sensorData initial].
    by rewrite lookup_empty.
Qed.

(** X22: the selector [useEquipmentData(equipmentId)] after any actions.
    With immer's MapSet plugin loaded it returns the equipment that the
    last [addEquipment] with this id stored, and nothing when there was
    none; sensor updates and selections never change the equipment.
    Without the plugin, as the guide has it, [addEquipment] throws and the
    selector never returns an equipment. *)
Theorem useEquipmentData_spec {Equipment SensorReading : Type}
    (equipment_id : Equipment -> string) (mapSet : bool)
    (actions : list (Action Equipment SensorReading)) (equipmentId : string) :
  useEquipmentData equipmentId (run equipment_id mapSet actions initial)
  = if mapSet then last (omap (equipment_of equipment_id equipmentId) actions)
    else None.
Proof.
  destruct mapSet; [|by rewrite run_disabled].
  unfold useEquipmentData.
  induction actions as [|a actions IH] using rev_ind; [done|].
  rewrite sensor_run_snoc, step_enabled, omap_app.
  assert (omap (equipment_of equipment_id equipmentId) [a]
          = match equipment_of equipment_id equipmentId a with
            | Some e => [e]
            | None => []
            end) as -> by (simpl; by destruct (equipment_of _ _ a)).
  destruct a as [e|s r|sel|updates]; simpl; try (by rewrite app_nil_r).
  destruct (decide (equipment_id e = equipmentId)) as [<-|Hne].
  - rewrite lookup_insert_eq. by rewrite last_snoc.
  - rewrite lookup_insert_ne by done. by rewrite app_nil_r.
Qed.

End SensorStoreFacts.
